(** * Movie recommender: the similarity-ranking engine of movie_recommender.py

    A shallow embedding of the two methods that carry the program's logic,

    - [MovieRecommenderGUI.load_and_process_data] (read the data set, fill the
      missing attributes, build the combined text, count the terms, compute
      the cosine similarity matrix), and
    - [RecommendationWorker.run] (resolve the title, sort the similarity row,
      collect the first twenty other movies),

    together with the library functions they call, as far as the program
    depends on them: [str.lower], pandas' [Series.str.contains] (a regular
    expression search), [CountVectorizer.fit_transform] and
    [cosine_similarity] of scikit-learn, and Python's stable [sorted].

    Text is modelled as strings of 8-bit characters, read as ASCII.  Scores
    are kept abstract in the worker (any type with a strict comparison);
    the rationals give a computable instance, the reals the exact
    arithmetic in which the cosine is stated, and binary64 numbers the
    arithmetic in which it is computed. *)

From Stdlib Require Import List String Ascii Bool Arith PeanoNat Lia.
From Stdlib Require Import ZArith QArith Qminmax.
From Stdlib Require Import Reals Lra Psatz.
From Stdlib Require Import Sorted Permutation.
From Stdlib Require Import DecimalString.
From Stdlib Require Floats Uint63.
Import ListNotations.

Close Scope Q_scope.
Close Scope R_scope.
Close Scope Z_scope.
Open Scope nat_scope.
Open Scope list_scope.

Set Implicit Arguments.

(* ================================================================= *)
(** ** Text: [str.lower], word characters, literal containment *)

Module Text.

Definition is_upper (c : ascii) : bool :=
  let n := nat_of_ascii c in (65 <=? n) && (n <=? 90).

Definition is_lower (c : ascii) : bool :=
  let n := nat_of_ascii c in (97 <=? n) && (n <=? 122).

Definition is_digit (c : ascii) : bool :=
  let n := nat_of_ascii c in (48 <=? n) && (n <=? 57).

Definition is_alnum (c : ascii) : bool :=
  is_upper c || is_lower c || is_digit c.

(** [\w] on ASCII text: a letter, a digit or the underscore. *)
Definition is_word_char (c : ascii) : bool :=
  is_alnum c || (nat_of_ascii c =? 95).

Definition lower_char (c : ascii) : ascii :=
  if is_upper c then ascii_of_nat (nat_of_ascii c + 32) else c.

(** [s.lower()] *)
Fixpoint lower (s : string) : string :=
  match s with
  | EmptyString => EmptyString
  | String c s' => String (lower_char c) (lower s')
  end.

Definition chars (s : string) : list ascii := list_ascii_of_string s.

Definition ascii_eqb (a b : ascii) : bool := Ascii.eqb a b.

(** [p] is a prefix of [s]. *)
Fixpoint starts_with (p s : list ascii) : bool :=
  match p, s with
  | [], _ => true
  | _ :: _, [] => false
  | a :: p', b :: s' => ascii_eqb a b && starts_with p' s'
  end.

(** [p in s] of Python: [p] occurs in [s] as a literal substring. *)
Fixpoint occurs_in (p s : list ascii) : bool :=
  starts_with p s ||
  match s with
  | [] => false
  | _ :: s' => occurs_in p s'
  end.

Definition contains_literal (p s : string) : bool :=
  occurs_in (chars p) (chars s).

End Text.

(* ================================================================= *)
(** ** Regular expressions: the fragment of Python's [re] that is modelled

    [Series.str.contains(pat)] compiles [pat] with [re.compile] and keeps
    the rows in which [regex.search] finds a match.  The model covers the
    patterns built from literal characters, [.], the postfix operators
    [*], [+], [?], alternation [|], groups [( )] and a backslash before a
    character that is neither a letter nor a digit.  Character classes,
    counted repetition, anchors, letter and digit escapes, group
    extensions [(?...)] and a repetition operator directly after another
    one are reported as [Unsupported]: the model makes no statement about
    them. *)

Module Regex.

Inductive regex : Type :=
| Void                       (* matches nothing *)
| Eps                        (* the empty string *)
| Chr (c : ascii)            (* one literal character *)
| Any                        (* [.]: any character but the newline *)
| Cat (r s : regex)
| Alt (r s : regex)
| Star (r : regex).

Definition Plus (r : regex) : regex := Cat r (Star r).
Definition Opt (r : regex) : regex := Alt r Eps.

(** What [re.compile] does with a pattern. *)
Inductive compiled : Type :=
| Pattern (r : regex)        (* a pattern object *)
| ReError                    (* raises [re.error] *)
| Unsupported.               (* syntax outside the modelled fragment *)

(** The parser state for one open group (or the top level): the branches
    already closed by [|], the items of the branch being read, both latest
    first, and whether the last item is the result of a repetition. *)
Record frame : Type := {
  alts : list regex;
  items : list regex;
  repeated : bool
}.

Definition empty_frame : frame :=
  {| alts := []; items := []; repeated := false |}.

Definition push (r : regex) (f : frame) : frame :=
  {| alts := alts f; items := r :: items f; repeated := false |}.

Definition close_branch (its : list regex) : regex :=
  fold_left (fun acc r => Cat r acc) its Eps.

Definition next_branch (f : frame) : frame :=
  {| alts := close_branch (items f) :: alts f; items := []; repeated := false |}.

Definition close_frame (f : frame) : regex :=
  fold_left (fun acc b => Alt b acc) (alts f) (close_branch (items f)).

Definition newline : ascii := ascii_of_nat 10.

Definition is_char (n : nat) (c : ascii) : bool := nat_of_ascii c =? n.

(** The characters [re] does not read as literals:
    [. \ [ { ( ) * + ? ^ $ |]. *)
Definition is_special (c : ascii) : bool :=
  existsb (fun n => is_char n c) [46; 92; 91; 123; 40; 41; 42; 43; 63; 94; 36; 124].

Definition repeat_item (op : regex -> regex) (stack : list frame) (cur : frame)
           (k : list frame -> frame -> compiled) : compiled :=
  match items cur with
  | [] => ReError                                  (* nothing to repeat *)
  | r :: rs =>
      if repeated cur then Unsupported             (* lazy, possessive or multiple repeat *)
      else k stack {| alts := alts cur; items := op r :: rs; repeated := true |}
  end.

(** The parser, left to right over the pattern, with the open groups on
    [stack]. *)
Fixpoint parse (stack : list frame) (cur : frame) (p : list ascii) : compiled :=
  match p with
  | [] =>
      match stack with
      | [] => Pattern (close_frame cur)
      | _ :: _ => ReError                          (* missing ), unterminated subpattern *)
      end
  | c :: p' =>
      if is_char 92 c then                         (* backslash *)
        match p' with
        | [] => ReError                            (* bad escape (end of pattern) *)
        | d :: p'' =>
            if Text.is_alnum d then Unsupported
            else parse stack (push (Chr d) cur) p''
        end
      else if is_char 46 c then parse stack (push Any cur) p'
      else if is_char 42 c then repeat_item Star stack cur (fun st f => parse st f p')
      else if is_char 43 c then repeat_item Plus stack cur (fun st f => parse st f p')
      else if is_char 63 c then repeat_item Opt stack cur (fun st f => parse st f p')
      else if is_char 124 c then parse stack (next_branch cur) p'
      else if is_char 40 c then                    (* ( *)
        match p' with
        | d :: _ => if is_char 63 d then Unsupported
                    else parse (cur :: stack) empty_frame p'
        | [] => parse (cur :: stack) empty_frame p'
        end
      else if is_char 41 c then                    (* ) *)
        match stack with
        | [] => ReError                            (* unbalanced parenthesis *)
        | outer :: stack' => parse stack' (push (close_frame cur) outer) p'
        end
      else if is_special c then Unsupported        (* [ { ^ $ *)
      else parse stack (push (Chr c) cur) p'
  end.

(** [re.compile(pat)] *)
Definition compile (pat : string) : compiled :=
  parse [] empty_frame (Text.chars pat).

Fixpoint nullable (r : regex) : bool :=
  match r with
  | Void => false
  | Eps => true
  | Chr _ => false
  | Any => false
  | Cat r1 r2 => nullable r1 && nullable r2
  | Alt r1 r2 => nullable r1 || nullable r2
  | Star _ => true
  end.

(** The derivative of [r] by the character [c]. *)
Fixpoint deriv (c : ascii) (r : regex) : regex :=
  match r with
  | Void => Void
  | Eps => Void
  | Chr d => if Text.ascii_eqb c d then Eps else Void
  | Any => if Text.ascii_eqb c newline then Void else Eps
  | Cat r1 r2 =>
      if nullable r1 then Alt (Cat (deriv c r1) r2) (deriv c r2)
      else Cat (deriv c r1) r2
  | Alt r1 r2 => Alt (deriv c r1) (deriv c r2)
  | Star r1 => Cat (deriv c r1) (Star r1)
  end.

(** Some prefix of [s] matches [r]: [regex.match(s) is not None]. *)
Fixpoint match_here (r : regex) (s : list ascii) : bool :=
  nullable r ||
  match s with
  | [] => false
  | c :: s' => match_here (deriv c r) s'
  end.

(** Some substring of [s] matches [r]: [regex.search(s) is not None]. *)
Fixpoint search (r : regex) (s : list ascii) : bool :=
  match_here r s ||
  match s with
  | [] => false
  | _ :: s' => search r s'
  end.

(** The words of [r], as a relation: the reference semantics against
    which [search] is checked. *)
Inductive matches : regex -> list ascii -> Prop :=
| m_eps : matches Eps []
| m_chr c : matches (Chr c) [c]
| m_any c : c <> newline -> matches Any [c]
| m_cat r1 r2 s1 s2 : matches r1 s1 -> matches r2 s2 -> matches (Cat r1 r2) (s1 ++ s2)
| m_alt_l r1 r2 s : matches r1 s -> matches (Alt r1 r2) s
| m_alt_r r1 r2 s : matches r2 s -> matches (Alt r1 r2) s
| m_star_nil r : matches (Star r) []
| m_star_cons r s1 s2 : matches r s1 -> matches (Star r) s2 -> matches (Star r) (s1 ++ s2).

End Regex.

(* ================================================================= *)
(** ** [CountVectorizer]: tokens, vocabulary, term counts

    scikit-learn's [CountVectorizer()] with its default settings:
    the text is lower-cased, the tokens are the maximal runs of two or more
    word characters (pattern [\b\w\w+\b]), the vocabulary is the sorted list
    of distinct tokens, and [fit_transform] raises [ValueError] ("empty
    vocabulary") when no document has a token. *)

Module Vectorizer.

Definition flush (cur : list ascii) : list string :=
  if 2 <=? List.length cur then [string_of_list_ascii cur] else [].

(** The tokens of [s], [cur] being the run of word characters read so
    far. *)
Fixpoint word_runs (cur s : list ascii) : list string :=
  match s with
  | [] => flush cur
  | c :: s' =>
      if Text.is_word_char c then word_runs (cur ++ [c]) s'
      else flush cur ++ word_runs [] s'
  end.

Definition tokenize (doc : string) : list string :=
  word_runs [] (Text.chars (Text.lower doc)).

Fixpoint insert_token (t : string) (v : list string) : list string :=
  match v with
  | [] => [t]
  | u :: v' =>
      match String.compare t u with
      | Eq => v
      | Lt => t :: v
      | Gt => u :: insert_token t v'
      end
  end.

(** The fitted vocabulary: position in the list = column of the matrix. *)
Definition vocabulary (docs : list string) : list string :=
  fold_left (fun v t => insert_token t v) (List.concat (map tokenize docs)) [].

Definition count (t : string) (tokens : list string) : nat :=
  count_occ string_dec tokens t.

Definition transform (vocab : list string) (docs : list string) : list (list nat) :=
  map (fun d => let ts := tokenize d in map (fun t => count t ts) vocab) docs.

(** [cv.fit_transform(docs)]; [None] is the [ValueError]. *)
Definition fit_transform (docs : list string) : option (list (list nat)) :=
  match vocabulary docs with
  | [] => None
  | v => Some (transform v docs)
  end.

End Vectorizer.

(* ================================================================= *)
(** ** [cosine_similarity] in exact real arithmetic

    scikit-learn computes [cosine_similarity(X)] as the product of the
    row-normalised matrix with its transpose; [normalize] divides each row
    by its Euclidean norm after replacing a norm of zero by one.
    Floating-point rounding is not modelled: the entries are real
    numbers. *)

Module Cosine.

Local Open Scope R_scope.

Definition dot (a b : list R) : R :=
  fold_right Rplus 0 (map (fun p => fst p * snd p) (combine a b)).

(** The counts as floating-point entries. *)
Definition to_float (x : list nat) : list R := map INR x.

Definition row_norm (x : list R) : R := sqrt (dot x x).

Definition handle_zeros_in_scale (s : R) : R :=
  if Req_dec_T s 0 then 1 else s.

(** The number each entry of row [x] is divided by. *)
Definition divisor (x : list R) : R := handle_zeros_in_scale (row_norm x).

Definition normalize_row (x : list R) : list R :=
  map (fun c => c / divisor x) x.

(** The score of two rows of the term-count matrix. *)
Definition score (a b : list nat) : R :=
  dot (normalize_row (to_float a)) (normalize_row (to_float b)).

Definition cosine_similarity (X : list (list nat)) : list (list R) :=
  map (fun a => map (fun b => score a b) X) X.

(** The derived quantities of the textbook formula, on the integer
    counts: computable. *)
Definition dot_counts (a b : list nat) : nat :=
  fold_right Nat.add 0%nat (map (fun p => (fst p * snd p)%nat) (combine a b)).

Definition sq_norm (a : list nat) : nat := dot_counts a a.

End Cosine.

(* ================================================================= *)
(** ** [cosine_similarity] as it is computed: binary64

    The same steps on IEEE 754 double-precision numbers, in the order the
    library takes them on the sparse count matrix: the squares of a row
    summed from left to right, the square root, every entry divided by
    it (by 1 for a zero norm), and the products of two normalised rows
    summed from left to right.  Entries that are zero add nothing, so
    skipping them, as the sparse routines do, gives the same sums. *)

Module Binary64.

(** [float(c)] for a count. *)
Definition of_count (c : nat) : PrimFloat.float :=
  PrimFloat.of_uint63 (Uint63.of_Z (Z.of_nat c)).

Definition to_float (x : list nat) : list PrimFloat.float := map of_count x.

Definition dot (a b : list PrimFloat.float) : PrimFloat.float :=
  fold_left (fun acc p => PrimFloat.add acc (PrimFloat.mul (fst p) (snd p)))
            (combine a b) PrimFloat.zero.

Definition row_norm (x : list PrimFloat.float) : PrimFloat.float :=
  PrimFloat.sqrt (dot x x).

Definition handle_zeros_in_scale (s : PrimFloat.float) : PrimFloat.float :=
  if PrimFloat.eqb s PrimFloat.zero then PrimFloat.one else s.

Definition divisor (x : list PrimFloat.float) : PrimFloat.float :=
  handle_zeros_in_scale (row_norm x).

Definition normalize_row (x : list PrimFloat.float) : list PrimFloat.float :=
  map (fun c => PrimFloat.div c (divisor x)) x.

Definition score (a b : list nat) : PrimFloat.float :=
  dot (normalize_row (to_float a)) (normalize_row (to_float b)).

Definition cosine_similarity (X : list (list nat)) : list (list PrimFloat.float) :=
  map (fun a => map (fun b => score a b) X) X.

End Binary64.

(* ================================================================= *)
(** ** Scores and Python's [sorted] *)

(** The comparison [<] on similarity scores. *)
Class ScoreLt (S : Type) : Type := score_ltb : S -> S -> bool.

#[export] Instance Q_score : ScoreLt Q :=
  fun a b => match Qcompare a b with Lt => true | _ => false end.

#[export] Instance R_score : ScoreLt R :=
  fun a b => if Rlt_dec a b then true else false.

(** [<] on binary64 numbers. *)
#[export] Instance float_score : ScoreLt PrimFloat.float := PrimFloat.ltb.

Section Sorted.
Context {S : Type} {lt : ScoreLt S}.

(** [list(enumerate(row))], counting from [start]. *)
Fixpoint enumerate_from (start : nat) (row : list S) : list (nat * S) :=
  match row with
  | [] => []
  | x :: row' => (start, x) :: enumerate_from (Datatypes.S start) row'
  end.

Definition enumerate (row : list S) : list (nat * S) := enumerate_from 0 row.

(** Put [x], which stood before every element of [l] in the input, into
    the descending list [l]: after the larger scores, before the equal
    and the smaller ones. *)
Fixpoint insert_desc (x : nat * S) (l : list (nat * S)) : list (nat * S) :=
  match l with
  | [] => [x]
  | y :: l' =>
      if score_ltb (snd x) (snd y) then y :: insert_desc x l'
      else x :: l
  end.

(** [sorted(l, key=lambda x: x[1], reverse=True)]: descending by score;
    the sort is stable, so elements with equal scores keep the order of
    [l]. *)
Definition sorted_desc (l : list (nat * S)) : list (nat * S) :=
  fold_right insert_desc [] l.

End Sorted.

(* ================================================================= *)
(** ** The data frame *)

(** One row of movie_dataset.csv, with the columns the program reads.
    [None] is pandas' NaN (a missing value); [combined_features] is the
    column the loader adds. *)
Record Row : Type := {
  title : option string;
  keywords : option string;
  cast : option string;
  genres : option string;
  director : option string;
  combined_features : option string
}.

(** The frame as [read_csv] returns it: the index label of a row is its
    position. *)
Definition DataFrame : Type := list Row.

Module Pandas.

(** [df['title'].str.lower()] *)
Definition title_lower (frame : DataFrame) : list (option string) :=
  map (fun r => option_map Text.lower (title r)) frame.

(** [column == s]: a missing value equals nothing. *)
Definition eq_str (column : list (option string)) (s : string) : list bool :=
  map (fun x => match x with Some t => String.eqb t s | None => false end) column.

(** [df[mask]]: the selected rows, each with its index label. *)
Fixpoint select_from (start : nat) (frame : DataFrame) (mask : list bool)
  : list (nat * Row) :=
  match frame, mask with
  | r :: frame', b :: mask' =>
      (if b then [(start, r)] else []) ++ select_from (S start) frame' mask'
  | _, _ => []
  end.

Definition select (frame : DataFrame) (mask : list bool) : list (nat * Row) :=
  select_from 0 frame mask.

(** [matches.empty] *)
Definition empty (selected : list (nat * Row)) : bool :=
  match selected with [] => true | _ :: _ => false end.

Inductive contains_result : Type :=
| Mask (mask : list bool)
| ReRaised                   (* [re.error] from [re.compile] *)
| NotModelled.               (* pattern outside the modelled fragment *)

(** [column.str.contains(pat, na=False)]: [pat] is a regular
    expression ([regex=True] is the default). *)
Definition str_contains (column : list (option string)) (pat : string)
  : contains_result :=
  match Regex.compile pat with
  | Regex.Pattern r =>
      Mask (map (fun x => match x with
                          | Some t => Regex.search r (Text.chars t)
                          | None => false
                          end) column)
  | Regex.ReError => ReRaised
  | Regex.Unsupported => NotModelled
  end.

(** [value.fillna('')] *)
Definition fillna (x : option string) : option string :=
  match x with Some s => Some s | None => Some EmptyString end.

(** [str(value)] *)
Definition str (x : option string) : string :=
  match x with Some s => s | None => "nan"%string end.

End Pandas.

(* ================================================================= *)
(** ** [RecommendationWorker] *)

Section Worker.
Context {S : Type} {lt : ScoreLt S}.

Record worker : Type := {
  movie_title : string;
  df : DataFrame;
  cosine_sim : list (list S)
}.

Inductive exn : Type :=
| IndexError
| re_error.

Inductive error_message : Type :=
| not_found (movie : string)   (* "Movie '...' not found in the database." *)
| occurred (e : exn).          (* "An error occurred: ..." *)

Definition recommendation : Type := (option string * S)%type.

(** What [run] emits. *)
Inductive signal : Type :=
| finished (recommendations : list recommendation)
| error (message : error_message)
| unmodelled.                  (* the model does not say what is emitted *)

(** Statements of [run]: they read the worker's fields and either go on
    with a value, raise, or stop after emitting a signal. *)
Inductive result (A : Type) : Type :=
| Ok (a : A)
| Raise (e : exn)
| Stop (s : signal).

Arguments Ok {A} a.
Arguments Raise {A} e.
Arguments Stop {A} s.

Definition M (A : Type) : Type := worker -> worker * result A.

Definition ret {A} (a : A) : M A := fun w => (w, Ok a).

Definition bind {A B} (m : M A) (k : A -> M B) : M B :=
  fun w =>
    match m w with
    | (w', Ok a) => k a w'
    | (w', Raise e) => (w', Raise e)
    | (w', Stop s) => (w', Stop s)
    end.

Definition get {A} (field : worker -> A) : M A := fun w => (w, Ok (field w)).
Definition raise {A} (e : exn) : M A := fun w => (w, Raise e).
Definition stop {A} (s : signal) : M A := fun w => (w, Stop s).

Local Notation "x <- m ;; k" := (bind m (fun x => k))
  (at level 61, m at next level, right associativity).

(** [sim[i]], [df.iloc[i]] *)
Definition getitem {A} (l : list A) (i : nat) : M A :=
  match nth_error l i with
  | Some a => ret a
  | None => raise IndexError
  end.

Definition str_contains (column : list (option string)) (pat : string)
  : M (list bool) :=
  match Pandas.str_contains column pat with
  | Pandas.Mask mask => ret mask
  | Pandas.ReRaised => raise re_error
  | Pandas.NotModelled => stop unmodelled
  end.

(** The loop over [sorted_similar_movies]: [top] is the 20 of the
    source, [count] the number of recommendations appended so far. *)
Fixpoint collect (top movie_index count : nat) (movies : list (nat * S))
  : M (list recommendation) :=
  match movies with
  | [] => ret []
  | movie :: rest =>
      if fst movie =? movie_index then collect top movie_index count rest
      else
        frame <- get df ;;
        r <- getitem frame (fst movie) ;;
        let movie_title := title r in
        let similarity_score := snd movie in
        let count := Datatypes.S count in
        if top <=? count then ret [(movie_title, similarity_score)]
        else
          recommendations <- collect top movie_index count rest ;;
          ret ((movie_title, similarity_score) :: recommendations)
  end.

Definition top_n : nat := 20.

(** The body of the [try] block; [top] stands for the literal 20. *)
Definition run_body (top : nat) : M (list recommendation) :=
  query <- get movie_title ;;
  frame <- get df ;;
  let lowered := Pandas.title_lower frame in
  let exact := Pandas.select frame (Pandas.eq_str lowered (Text.lower query)) in
  movie_matches <-
    (if Pandas.empty exact
     then mask <- str_contains lowered (Text.lower query) ;;
          ret (Pandas.select frame mask)
     else ret exact) ;;
  match movie_matches with
  | [] => stop (error (not_found query))
  | (movie_index, _) :: _ =>
      sim <- get cosine_sim ;;
      row <- getitem sim movie_index ;;
      let similar_movies := enumerate row in
      let sorted_similar_movies := sorted_desc similar_movies in
      collect top movie_index 0 sorted_similar_movies
  end.

(** The body, and the [except Exception] clause around it. *)
Definition run_top (top : nat) (w : worker) : worker * signal :=
  match run_body top w with
  | (w', Ok recommendations) => (w', finished recommendations)
  | (w', Raise e) => (w', error (occurred e))
  | (w', Stop s) => (w', s)
  end.

(** [RecommendationWorker.run] *)
Definition run (w : worker) : worker * signal := run_top top_n w.

(** *** The window's side: [get_recommendations] *)

Record gui : Type := {
  gui_df : DataFrame;
  gui_cosine_sim : list (list S);
  gui_worker : option worker
}.

(** The characters [str.strip] removes, among the ASCII ones. *)
Definition is_space (c : ascii) : bool :=
  let n := nat_of_ascii c in
  ((9 <=? n) && (n <=? 13)) || ((28 <=? n) && (n <=? 32)).

Fixpoint lstrip (s : list ascii) : list ascii :=
  match s with
  | [] => []
  | c :: s' => if is_space c then lstrip s' else s
  end.

Definition strip (s : string) : string :=
  string_of_list_ascii (rev (lstrip (rev (lstrip (Text.chars s))))).

(** One click on "Get Recommendations" with [text] in the input field,
    the worker run to its end.  The worker is given the window's frame
    and matrix themselves, not copies: what it leaves in them is what
    the window has afterwards.  [None]: the input was empty and no
    worker was started. *)
Definition get_recommendations (text : string) (g : gui) : gui * option signal :=
  let query := strip text in
  match query with
  | EmptyString => (g, None)
  | _ =>
      let w := {| movie_title := query; df := gui_df g;
                  cosine_sim := gui_cosine_sim g |} in
      let (w', s) := run w in
      ({| gui_df := df w'; gui_cosine_sim := cosine_sim w';
          gui_worker := Some w' |}, Some s)
  end.

End Worker.

Arguments Ok {S A} a.
Arguments Raise {S A} e.
Arguments Stop {S A} s.
Arguments worker S : clear implicits.
Arguments gui S : clear implicits.
Arguments signal S : clear implicits.
Arguments recommendation S : clear implicits.

(* ================================================================= *)
(** ** [MovieRecommenderGUI.load_and_process_data] *)

Module Loader.

(** What [pd.read_csv("movie_dataset.csv")] does. *)
Inductive csv : Type :=
| FileNotFoundError
| ReadFailure                (* any other exception of the reader *)
| Frame (rows : DataFrame).

Inductive load_exception : Type :=
| read_failure
| ValueError_empty_vocabulary.

(** How start-up ends: with the frame and the matrix in place, or in one
    of the two [except] clauses, both of which show a message box and
    call [sys.exit(1)]. *)
Inductive startup : Type :=
| Loaded (frame : DataFrame) (sim : list (list R))
| Exit_file_not_found        (* "movie_dataset.csv not found. ..." *)
| Exit_error (e : load_exception).   (* "Error loading data: ..." *)

Definition fill_features (r : Row) : Row :=
  {| title := title r;
     keywords := Pandas.fillna (keywords r);
     cast := Pandas.fillna (cast r);
     genres := Pandas.fillna (genres r);
     director := Pandas.fillna (director r);
     combined_features := combined_features r |}.

Definition combine_features (r : Row) : string :=
  (Pandas.str (keywords r) ++ " " ++ Pandas.str (cast r) ++ " " ++
   Pandas.str (genres r) ++ " " ++ Pandas.str (director r))%string.

Definition add_combined (r : Row) : Row :=
  {| title := title r;
     keywords := keywords r;
     cast := cast r;
     genres := genres r;
     director := director r;
     combined_features := Some (combine_features r) |}.

Definition load_and_process_data (file : csv) : startup :=
  match file with
  | FileNotFoundError => Exit_file_not_found
  | ReadFailure => Exit_error read_failure
  | Frame rows =>
      let frame := map add_combined (map fill_features rows) in
      match Vectorizer.fit_transform
              (map (fun r => Pandas.str (combined_features r)) frame) with
      | None => Exit_error ValueError_empty_vocabulary
      | Some count_matrix => Loaded frame (Cosine.cosine_similarity count_matrix)
      end
  end.

(** The term-count matrix the loader builds for [rows]. *)
Definition count_matrix (rows : DataFrame) : option (list (list nat)) :=
  Vectorizer.fit_transform
    (map (fun r => combine_features (fill_features r)) rows).

End Loader.

(* ================================================================= *)
(** ** The loader with the matrix as it is computed *)

Module Loader64.

(** How start-up ends, the matrix in binary64. *)
Inductive startup : Type :=
| Loaded (frame : DataFrame) (sim : list (list PrimFloat.float))
| Exit_file_not_found
| Exit_error (e : Loader.load_exception).

Definition load_and_process_data (file : Loader.csv) : startup :=
  match file with
  | Loader.FileNotFoundError => Exit_file_not_found
  | Loader.ReadFailure => Exit_error Loader.read_failure
  | Loader.Frame rows =>
      let frame := map Loader.add_combined (map Loader.fill_features rows) in
      match Vectorizer.fit_transform
              (map (fun r => Pandas.str (combined_features r)) frame) with
      | None => Exit_error Loader.ValueError_empty_vocabulary
      | Some count_matrix => Loaded frame (Binary64.cosine_similarity count_matrix)
      end
  end.

End Loader64.

(* ================================================================= *)
(** ** Derived views of [run], used to state its properties

    These definitions name the intermediate values of [run_body]: the row
    the title resolves to, the entries of the sorted row that the loop
    appends, and their titles.  [run_top_unfold] below proves that [run]
    is their composition. *)

Inductive resolved : Type :=
| Found (movie_index : nat)
| Missing                      (* both stages select no row *)
| PatternError                 (* [re.error] in the second stage *)
| Outside.                     (* pattern outside the modelled fragment *)

(** The value of [movie_index]: the first row whose lower-cased title
    equals the lower-cased query; if there is none, the first row in which
    the lower-cased query, read as a regular expression, finds a match. *)
Definition resolve (frame : DataFrame) (query : string) : resolved :=
  let lowered := Pandas.title_lower frame in
  match Pandas.select frame (Pandas.eq_str lowered (Text.lower query)) with
  | (i, _) :: _ => Found i
  | [] =>
      match Pandas.str_contains lowered (Text.lower query) with
      | Pandas.Mask mask =>
          match Pandas.select frame mask with
          | (i, _) :: _ => Found i
          | [] => Missing
          end
      | Pandas.ReRaised => PatternError
      | Pandas.NotModelled => Outside
      end
  end.

(** Literal substring search, the second stage as the specification words
    it: the first row whose lower-cased title contains the lower-cased
    query. *)
Definition substring_mask (frame : DataFrame) (query : string) : list bool :=
  map (fun x => match x with
                | Some t => Text.contains_literal (Text.lower query) t
                | None => false
                end) (Pandas.title_lower frame).

Section Views.
Context {S : Type} {lt : ScoreLt S}.

(** The entries the loop appends when it starts with [count]
    recommendations: the entries other than [movie_index], up to the
    point where the counter reaches [top]. *)
Definition other (movie_index : nat) (m : nat * S) : bool :=
  negb (fst m =? movie_index).

Definition picked_from (top movie_index count : nat) (movies : list (nat * S))
  : list (nat * S) :=
  firstn (Nat.max 1 (top - count)) (filter (other movie_index) movies).

Definition picked (top movie_index : nat) (movies : list (nat * S))
  : list (nat * S) :=
  picked_from top movie_index 0 movies.

(** The (title, score) pairs of the picked entries; [None] when a row
    number is not in the frame. *)
Fixpoint labelled (frame : DataFrame) (picks : list (nat * S))
  : option (list (recommendation S)) :=
  match picks with
  | [] => Some []
  | p :: ps =>
      match nth_error frame (fst p), labelled frame ps with
      | Some r, Some recs => Some ((title r, snd p) :: recs)
      | _, _ => None
      end
  end.

(** What [run] emits once the title is resolved to [movie_index]. *)
Definition ranking (top : nat) (w : worker S) (movie_index : nat) : signal S :=
  match nth_error (cosine_sim w) movie_index with
  | None => error (occurred IndexError)
  | Some row =>
      match labelled (df w) (picked top movie_index (sorted_desc (enumerate row))) with
      | Some recs => finished recs
      | None => error (occurred IndexError)
      end
  end.

(** The rows behind the recommendations of [w], with their scores. *)
Definition recommended (top : nat) (w : worker S) : list (nat * S) :=
  match resolve (df w) (movie_title w) with
  | Found i =>
      match nth_error (cosine_sim w) i with
      | Some row => picked top i (sorted_desc (enumerate row))
      | None => []
      end
  | _ => []
  end.

(** The matrix belongs to the frame: one row and one column per movie. *)
Definition square (w : worker S) : Prop :=
  List.length (cosine_sim w) = List.length (df w) /\
  Forall (fun row => List.length row = List.length (df w)) (cosine_sim w).

(** [p] may stand before [q] in the result: its score is not smaller,
    and on equal scores its row number is smaller. *)
Definition ranks_before (p q : nat * S) : Prop :=
  score_ltb (snd p) (snd q) = false /\
  (score_ltb (snd q) (snd p) = false -> fst p < fst q).

(** The comparison is a strict weak order (as [<] is on floating-point
    numbers other than NaN). *)
Class StrictWeak : Prop := {
  ltb_asym : forall a b : S, score_ltb a b = true -> score_ltb b a = false;
  ltb_negtrans : forall a b c : S,
      score_ltb a b = false -> score_ltb b c = false -> score_ltb a c = false
}.

End Views.

Arguments StrictWeak S {lt}.

(** A pattern without special characters, and the expression it compiles
    to: the characters one after the other. *)
Definition plain (p : list ascii) : Prop :=
  Forall (fun c => Regex.is_special c = false) p.

Definition push_chr (f : Regex.frame) (c : ascii) : Regex.frame :=
  Regex.push (Regex.Chr c) f.

Definition word (p : list ascii) : Regex.regex :=
  fold_right (fun c acc => Regex.Cat (Regex.Chr c) acc) Regex.Eps p.

(** [M[i][j]] *)
Definition entry {A : Type} (M : list (list A)) (i j : nat) : option A :=
  match nth_error M i with
  | Some row => nth_error row j
  | None => None
  end.


(* ================================================================= *)
(** ** Sample data *)

Module Example.

Definition movie (t g : string) : Row :=
  {| title := Some t; keywords := None; cast := None; genres := Some g;
     director := None; combined_features := None |}.

(** Four movies and the cosine similarity of their genre words. *)
Definition corpus : DataFrame :=
  [ movie "Avatar" "Action Adventure";
    movie "Avengers" "Action Adventure";
    movie "Titanic" "Drama Romance";
    movie "Alien" "Action Horror" ]%string.

Definition sim : list (list Q) :=
  [ [1; 1; 0; 1 # 2];
    [1; 1; 0; 1 # 2];
    [0; 0; 1; 0];
    [1 # 2; 1 # 2; 0; 1] ]%Q.

Definition ask (query : string) : worker Q :=
  {| movie_title := query; df := corpus; cosine_sim := sim |}.

(** Two movies with one title. *)
Definition twins : DataFrame :=
  [ movie "Heat" "Crime"; movie "Heat" "Comedy" ]%string.

Definition twins_sim : list (list Q) := [ [1; 0]; [0; 1] ]%Q.

Definition ask_twins (query : string) : worker Q :=
  {| movie_title := query; df := twins; cosine_sim := twins_sim |}.

(** A movie without any attribute text. *)
Definition blank : Row :=
  {| title := Some "Untitled"%string; keywords := None; cast := None;
     genres := None; director := None; combined_features := None |}.

Definition window : gui Q :=
  {| gui_df := corpus; gui_cosine_sim := sim; gui_worker := None |}.

End Example.

(* ================================================================= *)
(** ** The window's widgets: [display_recommendations], [handle_error]
       and the widget side of [get_recommendations] *)

Section Window.
Context {S : Type}.

(** [f"{score * 100:.1f}%"]: how a score is printed is left open. *)
Variable percent : S -> string.

(** A [QListWidgetItem]: its text and its [Qt.UserRole] data. *)
Record item : Type := {
  item_text : string;
  item_data : recommendation S
}.

Record view : Type := {
  button_enabled : bool;            (* recommend_button *)
  list_items : list item;           (* recommendations_list *)
  status_label : string;
  results_label : string;
  boxes : list (string * string)    (* QMessageBox.warning(title, text), latest first *)
}.

(** [f"{n}"] for a natural number. *)
Definition decimal (n : nat) : string :=
  NilEmpty.string_of_uint (Nat.to_uint n).

Definition item_for (idx : nat) (r : recommendation S) : item :=
  {| item_text :=
       (decimal idx ++ ". " ++ Pandas.str (fst r) ++
        " (Similarity: " ++ percent (snd r) ++ ")")%string;
     item_data := r |}.

(** [for idx, (title, score) in enumerate(recommendations, idx): addItem] *)
Fixpoint add_items (idx : nat) (recs : list (recommendation S)) (items : list item)
  : list item :=
  match recs with
  | [] => items
  | r :: recs' => add_items (Datatypes.S idx) recs' (items ++ [item_for idx r])
  end.

Definition handle_error (error_message : string) (v : view) : view :=
  {| button_enabled := true;
     list_items := [];
     status_label := "Error occurred";
     results_label := ("Error: " ++ error_message)%string;
     boxes := ("Error"%string, error_message) :: boxes v |}.

(** [error] is [None] or a string; [if error:] holds for a non-empty
    string. *)
Definition display_recommendations (recs : list (recommendation S))
           (error : option string) (v : view) : view :=
  match error with
  | Some (String c msg) =>
      handle_error (String c msg)
        {| button_enabled := true; list_items := list_items v;
           status_label := status_label v; results_label := results_label v;
           boxes := boxes v |}
  | _ =>
      match recs with
      | [] =>
          {| button_enabled := true;
             list_items := list_items v;
             status_label := "No results";
             results_label := "No recommendations found.";
             boxes := boxes v |}
      | _ :: _ =>
          {| button_enabled := true;
             list_items := add_items 1 recs [];
             status_label :=
               ("Displaying " ++ decimal (List.length recs) ++ " recommendations")%string;
             results_label :=
               ("Found " ++ decimal (List.length recs) ++ " recommendations")%string;
             boxes := boxes v |}
      end
  end.

(** The widget side of [get_recommendations], up to the start of the
    worker: the view afterwards, and the title the worker is started
    with, if one is started. *)
Definition start_search (text : string) (v : view) : view * option string :=
  match strip text with
  | EmptyString =>
      ({| button_enabled := button_enabled v;
          list_items := list_items v;
          status_label := status_label v;
          results_label := results_label v;
          boxes := ("Input Required"%string,
                    "Please enter a movie title."%string) :: boxes v |},
       None)
  | String c query =>
      ({| button_enabled := false;
          list_items := [];
          status_label := "Searching for recommendations...";
          results_label := "Processing...";
          boxes := boxes v |},
       Some (String c query))
  end.

End Window.

(** [lstrip] from the other end. *)
Definition rstrip (s : list ascii) : list ascii := rev (lstrip (rev s)).

(** A text of white space only. *)
Definition blank (text : string) : Prop := Forall (fun c => is_space c = true) (Text.chars text).

(** Neither the first nor the last character is white space. *)
Definition trimmed (s : list ascii) : Prop :=
  (forall c rest, s = c :: rest -> is_space c = false) /\
  (forall c front, s = front ++ [c] -> is_space c = false).

(** The tokens of a movie: those of its combined attribute text. *)
Definition movie_tokens (r : Row) : list string :=
  Vectorizer.tokenize (Loader.combine_features (Loader.fill_features r)).

(** The documents handed to the vectorizer. *)
Definition docs_of (rows : DataFrame) : list string :=
  map (fun r => Loader.combine_features (Loader.fill_features r)) rows.

(** What the loader makes of a row of the data set. *)
Definition loaded_row (r : Row) : Row :=
  Loader.add_combined (Loader.fill_features r).

Module Sample.

(** Titles that are not well-formed patterns, and one that is a pattern
    for something else. *)
Definition odd : DataFrame :=
  [ Example.movie "Heat" "Crime";
    Example.movie "(500) Days of Summer" "Comedy Drama";
    Example.movie "M*A*S*H" "Comedy War" ]%string.

Definition odd_sim : list (list Q) :=
  [ [1; 0; 0]; [0; 1; 1 # 2]; [0; 1 # 2; 1] ]%Q.

Definition ask_odd (query : string) : worker Q :=
  {| movie_title := query; df := odd; cosine_sim := odd_sim |}.

Definition percent (s : Q) : string := "?"%string.

(** The term counts of [Example.corpus], over the vocabulary
    action, adventure, drama, horror, romance. *)
Definition counts : list (list nat) :=
  [ [1; 1; 0; 0; 0]; [1; 1; 0; 0; 0]; [0; 0; 1; 0; 1]; [1; 0; 0; 1; 0] ].



(** The sorted row of "Alien" in [Example.sim]. *)
Definition alien_sorted : list (nat * Q) :=
  [ (3, 1%Q); (0, (1 # 2)%Q); (1, (1 # 2)%Q); (2, 0%Q) ].

Definition start : view (S := Q) :=
  {| button_enabled := true; list_items := []; status_label := "Ready";
     results_label := "Recommendations will appear here..."; boxes := [] |}.

End Sample.

(** Shapes of patterns that [re.compile] rejects: a closing parenthesis
    before any other special character, a repetition operator at the
    start, a backslash at the end after plain text, and a group that is
    opened after plain text and never closed. *)
Inductive rejected : list ascii -> Prop :=
| rejected_close (p rest : list ascii) :
    plain p -> rejected (p ++ ascii_of_nat 41 :: rest)
| rejected_repeat (c : ascii) (rest : list ascii) :
    Regex.is_char 42 c || Regex.is_char 43 c || Regex.is_char 63 c = true ->
    rejected (c :: rest)
| rejected_backslash (p : list ascii) :
    plain p -> rejected (p ++ [ascii_of_nat 92])
| rejected_open (p p' : list ascii) :
    plain p -> plain p' -> rejected (p ++ ascii_of_nat 40 :: p').

(* ================================================================= *)
(** * Properties *)

(* ----------------------------------------------------------------- *)
(** ** Regular expressions: the matcher against the reference semantics *)

Module RegexFacts.
Import Regex.

Lemma ascii_eqb_eq (a b : ascii) : Text.ascii_eqb a b = true <-> a = b.
Proof. unfold Text.ascii_eqb. apply Ascii.eqb_eq. Qed.

Lemma matches_nil_nullable r s : matches r s -> s = [] -> nullable r = true.
Proof.
  induction 1; intros E; simpl; try reflexivity; try discriminate.
  - apply app_eq_nil in E. destruct E as [E1 E2].
    rewrite (IHmatches1 E1), (IHmatches2 E2). reflexivity.
  - rewrite (IHmatches E). reflexivity.
  - rewrite (IHmatches E). apply orb_true_r.
Qed.

Lemma nullable_matches r : nullable r = true -> matches r [].
Proof.
  induction r; simpl; intros E; try discriminate.
  - constructor.
  - apply andb_true_iff in E. destruct E as [E1 E2].
    change (@nil ascii) with (@nil ascii ++ []). constructor; auto.
  - apply orb_true_iff in E. destruct E as [E | E].
    + apply m_alt_l; auto.
    + apply m_alt_r; auto.
  - constructor.
Qed.

Lemma nullable_spec r : nullable r = true <-> matches r [].
Proof.
  split; [apply nullable_matches | intros H; now apply (matches_nil_nullable H)].
Qed.

Lemma deriv_sound c r : forall s, matches (deriv c r) s -> matches r (c :: s).
Proof.
  induction r; simpl; intros s H.
  - inversion H.
  - inversion H.
  - destruct (Text.ascii_eqb c c0) eqn:E.
    + apply ascii_eqb_eq in E. subst. inversion H; subst. constructor.
    + inversion H.
  - destruct (Text.ascii_eqb c newline) eqn:E.
    + inversion H.
    + inversion H; subst. constructor. intros ->.
      assert (Text.ascii_eqb newline newline = true) by now apply ascii_eqb_eq.
      congruence.
  - destruct (nullable r1) eqn:N.
    + inversion H; subst.
      * match goal with
        | [ H' : matches (Cat _ _) _ |- _ ] => inversion H'; subst
        end.
        change (c :: s1 ++ s2) with ((c :: s1) ++ s2). constructor; auto.
      * change (c :: s) with ([] ++ c :: s). constructor; auto.
        now apply nullable_matches.
    + inversion H; subst.
      change (c :: s1 ++ s2) with ((c :: s1) ++ s2). constructor; auto.
  - inversion H; subst.
    + apply m_alt_l; auto.
    + apply m_alt_r; auto.
  - inversion H; subst.
    change (c :: s1 ++ s2) with ((c :: s1) ++ s2). constructor; auto.
Qed.

Lemma deriv_complete r s :
  matches r s -> forall c s', s = c :: s' -> matches (deriv c r) s'.
Proof.
  induction 1; intros a t E; simpl.
  - discriminate.
  - injection E as -> <-.
    assert (Text.ascii_eqb a a = true) as -> by now apply ascii_eqb_eq.
    constructor.
  - injection E as -> <-.
    destruct (Text.ascii_eqb a newline) eqn:N.
    + apply ascii_eqb_eq in N. contradiction.
    + constructor.
  - destruct s1 as [| b s1'].
    + simpl in E. rewrite (matches_nil_nullable H eq_refl).
      apply m_alt_r. eauto.
    + simpl in E. injection E as -> <-.
      destruct (nullable r1).
      * apply m_alt_l. constructor; eauto.
      * constructor; eauto.
  - apply m_alt_l. eauto.
  - apply m_alt_r. eauto.
  - discriminate.
  - destruct s1 as [| b s1'].
    + simpl in E. apply (IHmatches2 _ _ E).
    + simpl in E. injection E as -> <-. constructor; eauto.
Qed.

Lemma deriv_spec c r s : matches (deriv c r) s <-> matches r (c :: s).
Proof.
  split; [apply deriv_sound | intros H; apply (deriv_complete H eq_refl)].
Qed.

(** [match_here] finds a prefix in the language of [r]. *)
Lemma match_here_spec : forall s r,
    match_here r s = true <-> exists s1 s2, s = s1 ++ s2 /\ matches r s1.
Proof.
  induction s as [| c s IH]; intros r; simpl.
  - rewrite orb_false_r, nullable_spec. split.
    + intros H. exists [], []. auto.
    + intros (s1 & s2 & E & H). symmetry in E. apply app_eq_nil in E.
      destruct E; subst. assumption.
  - rewrite orb_true_iff, nullable_spec, IH. split.
    + intros [H | (s1 & s2 & E & H)].
      * exists [], (c :: s). auto.
      * exists (c :: s1), s2. split; [simpl; congruence | now apply deriv_spec].
    + intros (s1 & s2 & E & H). destruct s1 as [| b s1].
      * left. assumption.
      * right. simpl in E. injection E as -> ->.
        exists s1, s2. split; [reflexivity | now apply deriv_spec].
Qed.

(** [search] finds a substring in the language of [r]. *)
Theorem search_spec : forall s r,
    search r s = true <->
    exists pre mid post, s = pre ++ mid ++ post /\ matches r mid.
Proof.
  induction s as [| c s IH]; intros r; cbn [search].
  - rewrite orb_false_r, match_here_spec. split.
    + intros (s1 & s2 & E & H). exists [], s1, s2. auto.
    + intros (pre & mid & post & E & H). destruct pre; [| discriminate].
      exists mid, post. auto.
  - rewrite orb_true_iff, match_here_spec, IH. split.
    + intros [(s1 & s2 & E & H) | (pre & mid & post & E & H)].
      * exists [], s1, s2. auto.
      * exists (c :: pre), mid, post. split; [simpl; congruence | assumption].
    + intros (pre & mid & post & E & H). destruct pre as [| b pre].
      * left. exists mid, post. auto.
      * right. simpl in E. injection E as -> ->. exists pre, mid, post. auto.
Qed.

Lemma starts_with_spec : forall p s,
    Text.starts_with p s = true <-> exists post, s = p ++ post.
Proof.
  induction p as [| a p IH]; intros s; simpl.
  - split; [intros _; exists s; reflexivity | reflexivity].
  - destruct s as [| b s].
    + split; [discriminate | intros (post & E); discriminate].
    + rewrite andb_true_iff, ascii_eqb_eq, IH. split.
      * intros [-> (post & ->)]. exists post. reflexivity.
      * intros (post & E). injection E as -> ->. split; [reflexivity | eauto].
Qed.

(** [occurs_in] is literal containment. *)
Lemma occurs_in_spec : forall s p,
    Text.occurs_in p s = true <-> exists pre post, s = pre ++ p ++ post.
Proof.
  induction s as [| c s IH]; intros p; cbn [Text.occurs_in].
  - rewrite orb_false_r, starts_with_spec. split.
    + intros (post & E). exists [], post. assumption.
    + intros (pre & post & E). destruct pre; [| discriminate]. eauto.
  - rewrite orb_true_iff, starts_with_spec, IH. split.
    + intros [(post & E) | (pre & post & E)].
      * exists [], post. assumption.
      * exists (c :: pre), post. simpl. congruence.
    + intros (pre & post & E). destruct pre as [| b pre].
      * left. eauto.
      * right. simpl in E. injection E as -> ->. eauto.
Qed.

End RegexFacts.

(* ----------------------------------------------------------------- *)
(** ** Patterns without special characters are literal searches *)

Module LiteralFacts.
Import Regex.

Lemma not_special c :
  is_special c = false ->
  is_char 92 c = false /\ is_char 46 c = false /\ is_char 42 c = false /\
  is_char 43 c = false /\ is_char 63 c = false /\ is_char 124 c = false /\
  is_char 40 c = false /\ is_char 41 c = false.
Proof.
  unfold is_special. simpl. intros H.
  repeat (apply orb_false_iff in H; destruct H as [? H]).
  repeat split; assumption.
Qed.

Lemma parse_plain : forall p stack cur,
    plain p -> parse stack cur p = parse stack (fold_left push_chr p cur) [].
Proof.
  induction p as [| c p IH]; intros stack cur Hp.
  - reflexivity.
  - inversion Hp as [| ? ? Hc Hp']; subst.
    destruct (not_special _ Hc) as (H1 & H2 & H3 & H4 & H5 & H6 & H7 & H8).
    cbn [parse fold_left].
    rewrite H1, H2, H3, H4, H5, H6, H7, H8, Hc.
    apply IH. assumption.
Qed.

Lemma fold_push_chr : forall p f,
    alts (fold_left push_chr p f) = alts f /\
    items (fold_left push_chr p f) = rev (map Chr p) ++ items f.
Proof.
  induction p as [| c p IH]; intros f; simpl.
  - auto.
  - destruct (IH (push_chr f c)) as [Ha Hi]. rewrite Ha, Hi. simpl.
    split; [reflexivity | now rewrite <- app_assoc].
Qed.

Lemma close_branch_rev (rs : list regex) :
  close_branch (rev rs) = fold_right (fun r acc => Cat r acc) Eps rs.
Proof.
  unfold close_branch. rewrite <- fold_left_rev_right, rev_involutive. reflexivity.
Qed.

Lemma word_map (p : list ascii) :
  fold_right (fun r acc => Cat r acc) Eps (map Chr p) = word p.
Proof.
  induction p as [| c p IH]; simpl; [reflexivity | now rewrite IH].
Qed.

(** [re.compile] of a pattern without special characters. *)
Lemma compile_plain (pat : string) :
  plain (Text.chars pat) -> compile pat = Pattern (word (Text.chars pat)).
Proof.
  intros Hp. unfold compile. rewrite (parse_plain _ _ Hp). cbn [parse].
  destruct (fold_push_chr (Text.chars pat) empty_frame) as [Ha Hi].
  unfold close_frame. rewrite Ha, Hi. simpl. rewrite app_nil_r.
  now rewrite close_branch_rev, word_map.
Qed.

Lemma matches_word : forall p s, matches (word p) s <-> s = p.
Proof.
  induction p as [| c p IH]; intros s; simpl.
  - split.
    + intros H. inversion H. reflexivity.
    + intros ->. constructor.
  - split.
    + intros H. inversion H as [| | | ? ? s1 s2 H1 H2 | | | |]; subst.
      inversion H1; subst. apply IH in H2. subst. reflexivity.
    + intros ->. change (c :: p) with ([c] ++ p).
      constructor; [constructor | now apply IH].
Qed.

(** Searching for a word is literal containment. *)
Lemma search_word (p s : list ascii) : search (word p) s = Text.occurs_in p s.
Proof.
  apply eq_true_iff_eq.
  rewrite RegexFacts.search_spec, RegexFacts.occurs_in_spec. split.
  - intros (pre & mid & post & E & H). apply matches_word in H. subst. eauto.
  - intros (pre & post & E). exists pre, p, post. split; [assumption |].
    now apply matches_word.
Qed.

(** [str.contains] with a pattern without special characters selects the
    values that contain it. *)
Lemma str_contains_plain (column : list (option string)) (pat : string) :
  plain (Text.chars pat) ->
  Pandas.str_contains column pat =
  Pandas.Mask (map (fun x => match x with
                             | Some t => Text.contains_literal pat t
                             | None => false
                             end) column).
Proof.
  intros Hp. unfold Pandas.str_contains. rewrite (compile_plain _ Hp).
  f_equal. apply map_ext. intros [t |]; [| reflexivity].
  unfold Text.contains_literal. apply search_word.
Qed.

(** Lower-casing turns no character into a special one, or back. *)
Lemma is_special_lower (c : ascii) : is_special (Text.lower_char c) = is_special c.
Proof.
  destruct c as [[] [] [] [] [] [] [] []]; vm_compute; reflexivity.
Qed.

Lemma plain_lower (q : string) :
  plain (Text.chars q) -> plain (Text.chars (Text.lower q)).
Proof.
  unfold plain. induction q as [| c q IH]; simpl; intros H.
  - constructor.
  - inversion H; subst. constructor; [now rewrite is_special_lower | auto].
Qed.

End LiteralFacts.

(* ----------------------------------------------------------------- *)
(** ** [sorted]: a stable descending sort *)

Section SortedFacts.
Context {S : Type} {lt : ScoreLt S}.

Lemma insert_desc_perm (x : nat * S) : forall l,
    Permutation (insert_desc x l) (x :: l).
Proof.
  induction l as [| y l IH]; simpl.
  - apply Permutation_refl.
  - destruct (score_ltb (snd x) (snd y)).
    + eapply perm_trans; [apply perm_skip, IH | apply perm_swap].
    + apply Permutation_refl.
Qed.

(** The sorted list has the elements of the input. *)
Lemma sorted_desc_perm : forall l : list (nat * S),
    Permutation (sorted_desc l) l.
Proof.
  induction l as [| x l IH]; simpl.
  - apply perm_nil.
  - eapply perm_trans; [apply insert_desc_perm | apply perm_skip, IH].
Qed.

Lemma enumerate_from_In : forall (row : list S) n i s,
    In (i, s) (enumerate_from n row) <->
    n <= i /\ nth_error row (i - n) = Some s.
Proof.
  induction row as [| x row IH]; intros n i s; simpl.
  - split; [tauto | intros [_ H]; destruct (i - n); discriminate].
  - rewrite IH. split.
    + intros [E | [Hle Hn]].
      * injection E as <- <-. rewrite Nat.sub_diag. auto.
      * split; [lia |]. replace (i - n) with (Datatypes.S (i - Datatypes.S n)) by lia.
        assumption.
    + intros [Hle Hn]. destruct (i - n) as [| k] eqn:Ek.
      * left. simpl in Hn. injection Hn as <-. f_equal. lia.
      * right. split; [lia |]. simpl in Hn.
        replace (i - Datatypes.S n) with k by lia. assumption.
Qed.

Lemma enumerate_from_length : forall (row : list S) n,
    List.length (enumerate_from n row) = List.length row.
Proof.
  induction row as [| x row IH]; intros n; simpl; [reflexivity | now rewrite IH].
Qed.

Lemma filter_perm (A : Type) (f : A -> bool) (l l' : list A) :
  Permutation l l' -> Permutation (filter f l) (filter f l').
Proof.
  induction 1; simpl.
  - apply perm_nil.
  - destruct (f x); [apply perm_skip |]; assumption.
  - destruct (f x), (f y); try apply Permutation_refl. apply perm_swap.
  - eapply perm_trans; eassumption.
Qed.

(** The row itself occurs once in the enumeration. *)
Lemma others_length : forall (row : list S) n movie_index,
    List.length (filter (other movie_index) (enumerate_from n row)) =
    if (n <=? movie_index) && (movie_index <? n + List.length row)
    then List.length row - 1 else List.length row.
Proof.
  induction row as [| x row IH]; intros n k; simpl.
  - destruct (n <=? k), (k <? n + 0); reflexivity.
  - cbn [enumerate_from filter].
    replace (other k (n, x)) with (negb (n =? k)) by reflexivity.
    destruct (Nat.eqb_spec n k) as [-> | Hne]; cbn [negb List.length]; rewrite IH.
    + replace (Datatypes.S k <=? k) with false by (symmetry; apply Nat.leb_gt; lia).
      rewrite Nat.leb_refl. simpl.
      replace (k <? k + Datatypes.S (List.length row)) with true
        by (symmetry; apply Nat.ltb_lt; lia).
      lia.
    + destruct (Nat.leb_spec (Datatypes.S n) k), (Nat.leb_spec n k),
        (Nat.ltb_spec k (Datatypes.S n + List.length row)),
        (Nat.ltb_spec k (n + Datatypes.S (List.length row))); simpl; lia.
Qed.

Lemma Forall_perm (A : Type) (P : A -> Prop) (l l' : list A) :
  Permutation l l' -> Forall P l -> Forall P l'.
Proof.
  intros Hp Hl. rewrite Forall_forall in Hl |- *. intros x Hx.
  apply Hl. eapply Permutation_in; [apply Permutation_sym |]; eassumption.
Qed.

Lemma firstn_In (A : Type) (x : A) n l : In x (firstn n l) -> In x l.
Proof.
  intros H. rewrite <- (firstn_skipn n l). apply in_or_app. now left.
Qed.

Context {laws : StrictWeak S}.

Lemma insert_desc_sorted (x : nat * S) : forall l,
    StronglySorted ranks_before l ->
    Forall (fun y => fst x < fst y) l ->
    StronglySorted ranks_before (insert_desc x l).
Proof.
  induction l as [| y l IH]; intros Hs Hlt; simpl.
  - constructor; constructor.
  - apply StronglySorted_inv in Hs. destruct Hs as [Hs Hy].
    inversion Hlt as [| ? ? Hxy Hlt']; subst.
    destruct (score_ltb (snd x) (snd y)) eqn:E.
    + constructor; [apply IH; assumption |].
      apply (@Forall_perm _ _ (x :: l)).
      * apply Permutation_sym, insert_desc_perm.
      * constructor; [| assumption]. split.
        -- apply ltb_asym. assumption.
        -- intros E'. congruence.
    + constructor; [constructor; assumption |].
      constructor; [split; auto |].
      rewrite Forall_forall in Hy, Hlt' |- *. intros z Hz.
      destruct (Hy z Hz) as [Hyz _]. split.
      * eapply ltb_negtrans; eassumption.
      * intros _. apply Hlt'. assumption.
Qed.

(** The sorted enumeration of a row is descending by score and, on
    equal scores, ascending by row number. *)
Lemma sorted_enumerate_from : forall (row : list S) n,
    StronglySorted ranks_before (sorted_desc (enumerate_from n row)).
Proof.
  induction row as [| x row IH]; intros n; simpl.
  - constructor.
  - apply insert_desc_sorted; [apply IH |].
    apply (@Forall_perm _ _ (enumerate_from (Datatypes.S n) row)).
    + apply Permutation_sym, sorted_desc_perm.
    + rewrite Forall_forall. intros [i s] Hi. apply enumerate_from_In in Hi.
      simpl. lia.
Qed.

Lemma sorted_filter (A : Type) (R : A -> A -> Prop) (f : A -> bool) : forall l,
    StronglySorted R l -> StronglySorted R (filter f l).
Proof.
  induction l as [| x l IH]; intros Hs; simpl.
  - constructor.
  - apply StronglySorted_inv in Hs. destruct Hs as [Hs Hx].
    destruct (f x); [| auto]. constructor; [auto |].
    rewrite Forall_forall in Hx |- *. intros y Hy. apply filter_In in Hy.
    apply Hx. tauto.
Qed.

Lemma sorted_firstn (A : Type) (R : A -> A -> Prop) : forall n l,
    StronglySorted R l -> StronglySorted R (firstn n l).
Proof.
  induction n as [| n IH]; intros l Hs; simpl.
  - constructor.
  - destruct l as [| x l]; [constructor |].
    apply StronglySorted_inv in Hs. destruct Hs as [Hs Hx].
    constructor; [auto |].
    rewrite Forall_forall in Hx |- *. intros y Hy. apply Hx.
    eapply firstn_In. eassumption.
Qed.

Lemma ranks_before_asym (p q : nat * S) : ranks_before p q -> ~ ranks_before q p.
Proof.
  intros [Hpq Hlt] [Hqp Hlt']. specialize (Hlt Hqp). specialize (Hlt' Hpq). lia.
Qed.

Lemma sorted_unique (A : Type) (R : A -> A -> Prop) :
  (forall x y, R x y -> ~ R y x) ->
  forall l l', Permutation l l' -> StronglySorted R l -> StronglySorted R l' -> l = l'.
Proof.
  intros Hasym. induction l as [| x l IH]; intros l' Hp Hs Hs'.
  - apply Permutation_nil in Hp. now subst.
  - destruct l' as [| y l'].
    + apply Permutation_sym, Permutation_nil in Hp. discriminate.
    + apply StronglySorted_inv in Hs. destruct Hs as [Hs Hx].
      apply StronglySorted_inv in Hs'. destruct Hs' as [Hs' Hy].
      rewrite Forall_forall in Hx, Hy.
      assert (x = y) as ->.
      { assert (Hin : In x (y :: l'))
          by (eapply Permutation_in; [eassumption | now left]).
        assert (Hin' : In y (x :: l))
          by (eapply Permutation_in; [apply Permutation_sym; eassumption | now left]).
        destruct Hin as [E | Hin]; [now subst |].
        destruct Hin' as [E | Hin']; [now subst |].
        exfalso. apply (Hasym x y); auto. }
      f_equal. apply IH; auto. eapply Permutation_cons_inv. eassumption.
Qed.

(** Any arrangement of the enumerated row that is descending by score with
    equal scores in row order is the one [sorted_desc] computes: the result
    does not depend on how the stable sort is implemented. *)
Theorem sorted_desc_unique (row : list S) (l : list (nat * S)) :
  Permutation l (enumerate row) -> StronglySorted ranks_before l ->
  l = sorted_desc (enumerate row).
Proof.
  intros Hp Hs. apply (sorted_unique ranks_before_asym).
  - eapply perm_trans; [eassumption | apply Permutation_sym, sorted_desc_perm].
  - assumption.
  - apply sorted_enumerate_from.
Qed.

End SortedFacts.

(* ----------------------------------------------------------------- *)
(** ** The worker: [run] as the composition of its views *)

Section WorkerFacts.
Context {S : Type} {lt : ScoreLt S}.

Lemma picked_from_self top k count (movie : nat * S) rest :
  (fst movie =? k) = true ->
  picked_from top k count (movie :: rest) = picked_from top k count rest.
Proof.
  intros E. unfold picked_from. cbn [filter]. unfold other at 1.
  rewrite E. reflexivity.
Qed.

Lemma picked_from_last top k count (movie : nat * S) rest :
  (fst movie =? k) = false -> top <= Datatypes.S count ->
  picked_from top k count (movie :: rest) = [movie].
Proof.
  intros E Hle. unfold picked_from. cbn [filter]. unfold other at 1.
  rewrite E. cbn [negb].
  replace (Nat.max 1 (top - count)) with 1 by lia.
  reflexivity.
Qed.

Lemma picked_from_next top k count (movie : nat * S) rest :
  (fst movie =? k) = false -> Datatypes.S count < top ->
  picked_from top k count (movie :: rest) =
  movie :: picked_from top k (Datatypes.S count) rest.
Proof.
  intros E Hlt. unfold picked_from. cbn [filter]. unfold other at 1.
  rewrite E. cbn [negb].
  replace (Nat.max 1 (top - count))
    with (Datatypes.S (Nat.max 1 (top - Datatypes.S count))) by lia.
  reflexivity.
Qed.

(** The loop appends the titles and scores of the picked entries, and
    raises when one of them is not a row of the frame. *)
Lemma collect_unfold : forall movies top k count (w : worker S),
    collect top k count movies w =
    (w, match labelled (df w) (picked_from top k count movies) with
        | Some recs => Ok recs
        | None => Raise IndexError
        end).
Proof.
  induction movies as [| movie rest IH]; intros top k count w.
  - unfold picked_from. simpl. rewrite firstn_nil. reflexivity.
  - cbn [collect]. destruct (fst movie =? k) eqn:E.
    + rewrite IH, picked_from_self by assumption. reflexivity.
    + unfold bind, get, getitem.
      destruct (Nat.leb_spec top (Datatypes.S count)) as [Hle | Hlt].
      * rewrite picked_from_last by assumption. cbn [labelled].
        destruct (nth_error (df w) (fst movie)); reflexivity.
      * rewrite picked_from_next by assumption. cbn [labelled].
        destruct (nth_error (df w) (fst movie)) as [r |]; [| reflexivity].
        unfold ret at 1. rewrite IH.
        destruct (labelled (df w) (picked_from top k (Datatypes.S count) rest));
          reflexivity.
Qed.

(** [run] returns the worker as it was, with the signal that resolution
    and ranking determine. *)
Theorem run_top_unfold (top : nat) (w : worker S) :
  run_top top w =
  (w, match resolve (df w) (movie_title w) with
      | Found i => ranking top w i
      | Missing => error (not_found (movie_title w))
      | PatternError => error (occurred re_error)
      | Outside => unmodelled
      end).
Proof.
  unfold run_top, run_body, resolve, ranking, bind, get.
  destruct (Pandas.select (df w)
              (Pandas.eq_str (Pandas.title_lower (df w))
                 (Text.lower (movie_title w)))) as [| [i r] rest] eqn:Ex.
  - cbn [Pandas.empty]. unfold str_contains.
    destruct (Pandas.str_contains (Pandas.title_lower (df w))
                (Text.lower (movie_title w))) as [mask | |].
    + unfold ret at 1 2.
      destruct (Pandas.select (df w) mask) as [| [i r] rest].
      * reflexivity.
      * unfold getitem.
        destruct (nth_error (cosine_sim w) i) as [row |]; [| reflexivity].
        unfold ret. rewrite collect_unfold. unfold picked.
        destruct (labelled (df w) _); reflexivity.
    + reflexivity.
    + reflexivity.
  - cbn [Pandas.empty]. unfold ret at 1. unfold getitem.
    destruct (nth_error (cosine_sim w) i) as [row |]; [| reflexivity].
    unfold ret. rewrite collect_unfold. unfold picked.
    destruct (labelled (df w) _); reflexivity.
Qed.

Lemma run_frame (w : worker S) : fst (run w) = w.
Proof. unfold run. rewrite run_top_unfold. reflexivity. Qed.

(** *** Selection by a mask *)

Lemma select_from_inv : forall (frame : DataFrame) mask n k r rest,
    Pandas.select_from n frame mask = (k, r) :: rest ->
    exists i, k = n + i /\ nth_error frame i = Some r /\
              nth_error mask i = Some true /\
              forall j, j < i -> nth_error mask j = Some false.
Proof.
  induction frame as [| r0 frame IH]; intros mask n k r rest H.
  - discriminate.
  - destruct mask as [| b mask]; [discriminate |].
    cbn [Pandas.select_from] in H. destruct b.
    + simpl in H. injection H as <- <- _. exists 0.
      split; [lia |]. split; [reflexivity |]. split; [reflexivity |].
      intros j Hj. lia.
    + simpl in H. apply IH in H. destruct H as (i & -> & Hr & Hm & Hlt).
      exists (Datatypes.S i).
      split; [lia |]. split; [assumption |]. split; [assumption |].
      intros [| j] Hj; [reflexivity | apply Hlt; lia].
Qed.

Lemma select_from_first : forall (frame : DataFrame) mask n i r,
    nth_error frame i = Some r ->
    nth_error mask i = Some true ->
    (forall j, j < i -> nth_error mask j = Some false) ->
    exists rest, Pandas.select_from n frame mask = (n + i, r) :: rest.
Proof.
  induction frame as [| r0 frame IH]; intros mask n i r Hr Hm Hlt.
  - destruct i; discriminate.
  - destruct mask as [| b mask]; [destruct i; discriminate |].
    cbn [Pandas.select_from]. destruct i as [| i].
    + simpl in Hr, Hm. injection Hr as ->. injection Hm as ->.
      simpl. rewrite Nat.add_0_r. eauto.
    + assert (b = false) as ->.
      { specialize (Hlt 0 (Nat.lt_0_succ i)). simpl in Hlt. congruence. }
      simpl. replace (n + Datatypes.S i) with (Datatypes.S n + i) by lia.
      apply IH; auto.
      intros j Hj. apply (Hlt (Datatypes.S j)). lia.
Qed.

Lemma select_from_nil : forall (frame : DataFrame) mask n,
    Forall (fun b => b = false) mask -> Pandas.select_from n frame mask = [].
Proof.
  induction frame as [| r0 frame IH]; intros mask n H.
  - reflexivity.
  - destruct mask as [| b mask]; [reflexivity |].
    inversion H; subst. cbn [Pandas.select_from]. simpl. auto.
Qed.

End WorkerFacts.

(* ----------------------------------------------------------------- *)
(** ** The cosine of two rows *)

Module CosineFacts.
Import Cosine.
Local Open Scope R_scope.

Lemma dot_nil_r (a : list R) : dot a [] = 0.
Proof. destruct a; reflexivity. Qed.

Lemma dot_cons x y (a b : list R) : dot (x :: a) (y :: b) = x * y + dot a b.
Proof. reflexivity. Qed.

Lemma dot_comm : forall a b : list R, dot a b = dot b a.
Proof.
  induction a as [| x a IH]; intros b.
  - now rewrite dot_nil_r.
  - destruct b as [| y b]; [reflexivity |].
    rewrite !dot_cons, IH. ring.
Qed.

Lemma dot_self_nonneg : forall a : list R, 0 <= dot a a.
Proof.
  induction a as [| x a IH]; [apply Rle_refl |].
  rewrite dot_cons. nra.
Qed.

(** Termwise, [2 x y <= x² + y²]. *)
Lemma dot_le_mean : forall a b : list R, 2 * dot a b <= dot a a + dot b b.
Proof.
  induction a as [| x a IH]; intros b.
  - change (dot [] b) with 0. change (dot [] []) with 0.
    pose proof (dot_self_nonneg b). lra.
  - destruct b as [| y b].
    + rewrite dot_nil_r. change (dot [] []) with 0.
      pose proof (dot_self_nonneg (x :: a)). lra.
    + rewrite !dot_cons. specialize (IH b).
      pose proof (Rle_0_sqr (x - y)) as Hsq. unfold Rsqr in Hsq. lra.
Qed.

Lemma dot_nonneg : forall a b : list R,
    Forall (fun c => 0 <= c) a -> Forall (fun c => 0 <= c) b -> 0 <= dot a b.
Proof.
  induction a as [| x a IH]; intros b Ha Hb.
  - apply Rle_refl.
  - destruct b as [| y b]; [rewrite dot_nil_r; apply Rle_refl |].
    inversion Ha; inversion Hb; subst. rewrite dot_cons.
    apply Rplus_le_le_0_compat; [apply Rmult_le_pos; assumption |].
    apply IH; assumption.
Qed.

Lemma dot_scaled (k l : R) : forall a b : list R,
    dot (map (fun c => c / k) a) (map (fun c => c / l) b) = dot a b * (/ k * / l).
Proof.
  induction a as [| x a IH]; intros b.
  - simpl. change (dot [] _) with 0. ring.
  - destruct b as [| y b].
    + simpl. rewrite !dot_nil_r. ring.
    + simpl. rewrite !dot_cons, IH. unfold Rdiv. ring.
Qed.



Lemma row_norm_zero (x : list R) : row_norm x = 0 -> dot x x = 0.
Proof.
  unfold row_norm. intros H. apply sqrt_eq_0; [apply dot_self_nonneg | assumption].
Qed.

(** The number a row is divided by is positive: its norm, or 1. *)
Lemma divisor_pos (x : list R) : 0 < divisor x.
Proof.
  unfold divisor, handle_zeros_in_scale.
  destruct (Req_dec_T (row_norm x) 0) as [E | N]; [lra |].
  pose proof (sqrt_pos (dot x x)). unfold row_norm in *. lra.
Qed.

Lemma divisor_sqr (x : list R) :
  row_norm x <> 0 -> divisor x * divisor x = dot x x.
Proof.
  intros N. unfold divisor, handle_zeros_in_scale.
  destruct (Req_dec_T (row_norm x) 0) as [E | _]; [contradiction |].
  unfold row_norm. apply sqrt_sqrt, dot_self_nonneg.
Qed.

(** A normalised row has squared length 1, or 0 for the zero row. *)
Lemma normalized_self (x : list R) :
  dot (normalize_row x) (normalize_row x) <= 1.
Proof.
  unfold normalize_row. rewrite dot_scaled.
  destruct (Req_dec_T (row_norm x) 0) as [E | N].
  - rewrite (row_norm_zero _ E). lra.
  - rewrite <- (@divisor_sqr x N). pose proof (divisor_pos x) as Hd.
    apply Req_le. field. lra.
Qed.

Lemma to_float_nonneg (a : list nat) : Forall (fun c => 0 <= c) (to_float a).
Proof.
  unfold to_float. rewrite Forall_forall. intros c Hc.
  apply in_map_iff in Hc. destruct Hc as (n & <- & _). apply pos_INR.
Qed.

Lemma normalized_nonneg (x : list R) :
  Forall (fun c => 0 <= c) x -> Forall (fun c => 0 <= c) (normalize_row x).
Proof.
  intros H. unfold normalize_row. rewrite Forall_forall in H |- *.
  intros c Hc. apply in_map_iff in Hc. destruct Hc as (d & <- & Hd).
  pose proof (divisor_pos x). apply Rle_mult_inv_pos; auto.
Qed.

Lemma score_bounds (a b : list nat) : 0 <= score a b <= 1.
Proof.
  unfold score. split.
  - apply dot_nonneg; apply normalized_nonneg, to_float_nonneg.
  - pose proof (dot_le_mean (normalize_row (to_float a)) (normalize_row (to_float b))).
    pose proof (normalized_self (to_float a)).
    pose proof (normalized_self (to_float b)). lra.
Qed.


Lemma score_comm (a b : list nat) : score a b = score b a.
Proof. unfold score. apply dot_comm. Qed.

(** With both norms non-zero the score is the textbook quotient. *)
Lemma score_quotient (a b : list nat) :
  row_norm (to_float a) <> 0 -> row_norm (to_float b) <> 0 ->
  score a b =
  dot (to_float a) (to_float b) / (row_norm (to_float a) * row_norm (to_float b)).
Proof.
  intros Na Nb. unfold score, normalize_row. rewrite dot_scaled.
  unfold divisor, handle_zeros_in_scale.
  destruct (Req_dec_T (row_norm (to_float a)) 0); [contradiction |].
  destruct (Req_dec_T (row_norm (to_float b)) 0); [contradiction |].
  field. split; assumption.
Qed.

(** The real dot product of count rows is the integer one. *)
Lemma dot_counts_INR : forall a b : list nat,
    dot (to_float a) (to_float b) = INR (dot_counts a b).
Proof.
  induction a as [| x a IH]; intros b.
  - reflexivity.
  - destruct b as [| y b]; [simpl; apply dot_nil_r |].
    change (to_float (x :: a)) with (INR x :: to_float a).
    change (to_float (y :: b)) with (INR y :: to_float b).
    rewrite dot_cons, IH.
    change (dot_counts (x :: a) (y :: b)) with (x * y + dot_counts a b)%nat.
    now rewrite plus_INR, mult_INR.
Qed.

(** The norm of a count row is zero exactly when the row has no term. *)
Lemma row_norm_zero_iff (a : list nat) :
  row_norm (to_float a) = 0 <-> sq_norm a = 0%nat.
Proof.
  unfold row_norm, sq_norm. rewrite dot_counts_INR. split.
  - intros H. apply sqrt_eq_0 in H; [| apply pos_INR]. now apply INR_eq.
  - intros ->. apply sqrt_0.
Qed.

End CosineFacts.

(* ----------------------------------------------------------------- *)
(** ** The comparisons on the rationals and on the reals *)

Lemma Q_ltb_lt (a b : Q) : score_ltb a b = true <-> (a < b)%Q.
Proof.
  unfold score_ltb, Q_score. rewrite Qlt_alt.
  destruct (a ?= b)%Q; split; congruence.
Qed.

Lemma Q_ltb_ge (a b : Q) : score_ltb a b = false <-> (b <= a)%Q.
Proof.
  rewrite <- not_true_iff_false, Q_ltb_lt. split.
  - apply Qnot_lt_le.
  - apply Qle_not_lt.
Qed.

Lemma Q_strict_weak : StrictWeak Q.
Proof.
  split.
  - intros a b H. apply Q_ltb_lt in H. apply Q_ltb_ge. now apply Qlt_le_weak.
  - intros a b c H1 H2. apply Q_ltb_ge in H1, H2. apply Q_ltb_ge.
    eapply Qle_trans; eassumption.
Qed.

Lemma R_ltb_lt (a b : R) : score_ltb a b = true <-> (a < b)%R.
Proof.
  unfold score_ltb, R_score. destruct (Rlt_dec a b); split; intros; congruence.
Qed.

Lemma R_ltb_ge (a b : R) : score_ltb a b = false <-> (b <= a)%R.
Proof.
  rewrite <- not_true_iff_false, R_ltb_lt. split; intros H; lra.
Qed.

Lemma R_strict_weak : StrictWeak R.
Proof.
  split.
  - intros a b H. apply R_ltb_lt in H. apply R_ltb_ge. lra.
  - intros a b c H1 H2. apply R_ltb_ge in H1, H2. apply R_ltb_ge. lra.
Qed.

(* ----------------------------------------------------------------- *)
(** ** Resolution and ranking *)

Section RankingFacts.
Context {S : Type} {lt : ScoreLt S}.

Lemma lower_length : forall s, String.length (Text.lower s) = String.length s.
Proof. induction s; simpl; congruence. Qed.

Lemma lower_empty (s : string) : Text.lower s = EmptyString -> s = EmptyString.
Proof. destruct s; [reflexivity | discriminate]. Qed.

(** A resolved title is a row of the frame. *)
Lemma resolve_found_row (frame : DataFrame) (query : string) (i : nat) :
  resolve frame query = Found i -> exists r, nth_error frame i = Some r.
Proof.
  unfold resolve, Pandas.select.
  destruct (Pandas.select_from 0 frame
              (Pandas.eq_str (Pandas.title_lower frame) (Text.lower query)))
    as [| [k r] rest] eqn:Ex.
  - destruct (Pandas.str_contains (Pandas.title_lower frame) (Text.lower query))
      as [mask | |]; try discriminate.
    destruct (Pandas.select_from 0 frame mask) as [| [k r] rest] eqn:Ef;
      [discriminate |].
    intros H. injection H as <-.
    apply select_from_inv in Ef. destruct Ef as (j & -> & Hr & _). eauto.
  - intros H. injection H as <-.
    apply select_from_inv in Ex. destruct Ex as (j & -> & Hr & _). eauto.
Qed.

Lemma labelled_length : forall (frame : DataFrame) (picks : list (nat * S)) recs,
    labelled frame picks = Some recs -> List.length recs = List.length picks.
Proof.
  induction picks as [| p picks IH]; intros recs H; simpl in H.
  - injection H as <-. reflexivity.
  - destruct (nth_error frame (fst p)); [| discriminate].
    destruct (labelled frame picks) as [recs' |]; [| discriminate].
    injection H as <-. simpl. f_equal. auto.
Qed.

Lemma labelled_scores : forall (frame : DataFrame) (picks : list (nat * S)) recs,
    labelled frame picks = Some recs -> map snd recs = map snd picks.
Proof.
  induction picks as [| p picks IH]; intros recs H; simpl in H.
  - injection H as <-. reflexivity.
  - destruct (nth_error frame (fst p)); [| discriminate].
    destruct (labelled frame picks) as [recs' |]; [| discriminate].
    injection H as <-. simpl. f_equal. auto.
Qed.

Lemma labelled_total : forall (frame : DataFrame) (picks : list (nat * S)),
    Forall (fun p => fst p < List.length frame) picks ->
    exists recs, labelled frame picks = Some recs.
Proof.
  induction picks as [| p picks IH]; intros H; simpl.
  - eauto.
  - inversion H as [| ? ? Hp Hps]; subst.
    destruct (nth_error frame (fst p)) as [r |] eqn:E.
    + destruct (IH Hps) as (recs & ->). eauto.
    + apply nth_error_None in E. lia.
Qed.

(** The recommendations [run] emits are the titles and scores of
    [recommended]. *)
Lemma finished_recommended (top : nat) (w : worker S) recs :
  snd (run_top top w) = finished recs ->
  labelled (df w) (recommended top w) = Some recs.
Proof.
  rewrite run_top_unfold. unfold recommended, ranking. cbn [snd].
  destruct (resolve (df w) (movie_title w)); try discriminate.
  destruct (nth_error (cosine_sim w) movie_index); [| discriminate].
  destruct (labelled (df w) _); [| discriminate].
  intros H. injection H as <-. reflexivity.
Qed.

Lemma picked_incl top k (movies : list (nat * S)) p :
  In p (picked top k movies) -> In p movies /\ fst p <> k.
Proof.
  unfold picked, picked_from. intros H. apply firstn_In in H.
  apply filter_In in H. destruct H as [H E]. split; [assumption |].
  unfold other in E. apply negb_true_iff in E. now apply Nat.eqb_neq.
Qed.

(** The resolved row is not among the recommended ones. *)
Lemma recommended_not_resolved (top : nat) (w : worker S) (i : nat) :
  resolve (df w) (movie_title w) = Found i ->
  ~ In i (map fst (recommended top w)).
Proof.
  intros Hr. unfold recommended. rewrite Hr.
  destruct (nth_error (cosine_sim w) i) as [row |]; [| simpl; tauto].
  intros H. apply in_map_iff in H. destruct H as (p & Hp & Hin).
  apply picked_incl in Hin. destruct Hin as [_ Hne]. congruence.
Qed.

End RankingFacts.

(* ----------------------------------------------------------------- *)
(** ** Query resolution *)

(** For a query without special characters the second stage is the
    literal, case-insensitive substring search: the title resolves to the
    first row whose lower-cased title equals the lower-cased query, else to
    the first row whose lower-cased title contains it, else to nothing. *)
Theorem resolve_plain (frame : DataFrame) (query : string) :
  plain (Text.chars (Text.lower query)) ->
  resolve frame query =
  match Pandas.select frame
          (Pandas.eq_str (Pandas.title_lower frame) (Text.lower query)) with
  | (i, _) :: _ => Found i
  | [] =>
      match Pandas.select frame (substring_mask frame query) with
      | (i, _) :: _ => Found i
      | [] => Missing
      end
  end.
Proof.
  intros Hp. unfold resolve.
  rewrite (LiteralFacts.str_contains_plain _ _ Hp). reflexivity.
Qed.

(** A pattern that [re] rejects, with no row of that exact title, ends in
    the [except] clause. *)
Lemma resolve_bad_pattern (frame : DataFrame) (query : string) :
  Regex.compile (Text.lower query) = Regex.ReError ->
  Pandas.select frame
    (Pandas.eq_str (Pandas.title_lower frame) (Text.lower query)) = [] ->
  resolve frame query = PatternError.
Proof.
  intros Hc Hx. unfold resolve, Pandas.str_contains. rewrite Hx, Hc. reflexivity.
Qed.

(** C1 (the code departs from the claim).  The claim: when no title equals
    the query, the query is looked up as a substring of the titles, and
    the call fails with NotFound when no title contains it.  The code: the
    second stage is [str.contains] with its default [regex=True].  On the
    sample corpus no lower-cased title equals or contains "av.tar" or "(",
    yet "av.tar" resolves to "Avatar" and its recommendations are emitted,
    and "(" ends in the general error message, not in NotFound. *)
Theorem C1_second_stage_is_regex_search :
  Pandas.select Example.corpus
    (Pandas.eq_str (Pandas.title_lower Example.corpus) (Text.lower "av.tar")) = [] /\
  Pandas.select Example.corpus (substring_mask Example.corpus "av.tar") = [] /\
  resolve Example.corpus "av.tar" = Found 0 /\
  snd (run (Example.ask "av.tar")) =
    finished [(Some "Avengers", 1); (Some "Alien", 1 # 2); (Some "Titanic", 0)]%Q%string /\
  Pandas.select Example.corpus
    (Pandas.eq_str (Pandas.title_lower Example.corpus) (Text.lower "(")) = [] /\
  Pandas.select Example.corpus (substring_mask Example.corpus "(") = [] /\
  snd (run (Example.ask "(")) = error (occurred re_error).
Proof.
  repeat split; vm_compute; reflexivity.
Qed.

(** C9.  The second stage reads the query as a regular expression: the
    query "t.t" selects "Titanic", whose lower-cased title does not
    contain "t.t", and recommendations are emitted for it; the query
    "alien)" is not a well-formed pattern and the call ends with
    "An error occurred", which is not the not-found message. *)
Theorem C9_query_is_a_pattern :
  (exists i r t recs,
      resolve Example.corpus "t.t" = Found i /\
      nth_error Example.corpus i = Some r /\ title r = Some t /\
      Text.contains_literal (Text.lower "t.t") (Text.lower t) = false /\
      Regex.is_special "." = true /\
      snd (run (Example.ask "t.t")) = finished recs) /\
  (Regex.compile (Text.lower "alien)") = Regex.ReError /\
   snd (run (Example.ask "alien)")) = error (occurred re_error) /\
   forall movie, @error Q (occurred re_error) <> error (not_found movie)).
Proof.
  split.
  - exists 2, (Example.movie "Titanic" "Drama Romance"), "Titanic"%string.
    eexists. repeat split; vm_compute; reflexivity.
  - repeat split; try (vm_compute; reflexivity).
    intros movie H. discriminate H.
Qed.

Section EmptyQuery.
Context {S : Type} {lt : ScoreLt S}.

Lemma eq_str_empty_all_false (frame : DataFrame) :
  Forall (fun r => exists t, title r = Some t /\ t <> EmptyString) frame ->
  Forall (fun b => b = false)
         (Pandas.eq_str (Pandas.title_lower frame) EmptyString).
Proof.
  intros H. unfold Pandas.eq_str, Pandas.title_lower. rewrite map_map.
  rewrite Forall_forall in H |- *. intros b Hb.
  apply in_map_iff in Hb. destruct Hb as (r & <- & Hr).
  destruct (H r Hr) as (t & -> & Hne). simpl.
  apply String.eqb_neq. intros E. apply Hne. now apply lower_empty.
Qed.

Lemma search_eps (s : list ascii) : Regex.search Regex.Eps s = true.
Proof. destruct s; reflexivity. Qed.

(** The empty query on a frame of titled movies resolves to row 0. *)
Lemma resolve_empty_query (r0 : Row) (rest : DataFrame) :
  Forall (fun r => exists t, title r = Some t /\ t <> EmptyString) (r0 :: rest) ->
  resolve (r0 :: rest) EmptyString = Found 0.
Proof.
  intros H. unfold resolve. cbn [Text.lower].
  unfold Pandas.select at 1.
  rewrite (select_from_nil _ 0 (eq_str_empty_all_false H)).
  inversion H as [| ? ? (t & Ht & _) _]; subst.
  unfold Pandas.str_contains, Pandas.select. cbn.
  rewrite Ht. cbn. rewrite search_eps. reflexivity.
Qed.

(** A movie's own title resolves to its row when no earlier row has the
    same lower-cased title. *)
Lemma resolve_own_title (frame : DataFrame) (i : nat) (r : Row) (t : string) :
  nth_error frame i = Some r -> title r = Some t ->
  (forall j r', j < i -> nth_error frame j = Some r' ->
                option_map Text.lower (title r') <> Some (Text.lower t)) ->
  resolve frame t = Found i.
Proof.
  intros Hr Ht Hfirst. unfold resolve, Pandas.select.
  destruct (@select_from_first frame
              (Pandas.eq_str (Pandas.title_lower frame) (Text.lower t)) 0 i r Hr)
    as (rest & ->); [| | reflexivity].
  - unfold Pandas.eq_str, Pandas.title_lower. rewrite map_map.
    rewrite nth_error_map, Hr. simpl. rewrite Ht. simpl.
    now rewrite String.eqb_refl.
  - intros j Hj. unfold Pandas.eq_str, Pandas.title_lower. rewrite map_map.
    rewrite nth_error_map.
    destruct (nth_error frame j) as [r' |] eqn:Ej.
    + simpl. f_equal. specialize (Hfirst j r' Hj Ej).
      destruct (title r') as [t' |]; simpl in *; [| reflexivity].
      apply String.eqb_neq. congruence.
    + apply nth_error_None in Ej.
      assert (i < List.length frame) by (apply nth_error_Some; congruence). lia.
Qed.

End EmptyQuery.

(* ----------------------------------------------------------------- *)
(** ** Ranking on a matrix that belongs to the frame *)

Section SquareFacts.
Context {S : Type} {lt : ScoreLt S}.

Lemma sorted_enumerate_In (row : list S) (p : nat * S) :
  In p (sorted_desc (enumerate row)) <-> nth_error row (fst p) = Some (snd p).
Proof.
  destruct p as [i s]. unfold enumerate. split.
  - intros H. apply (Permutation_in _ (sorted_desc_perm _)) in H.
    apply enumerate_from_In in H. rewrite Nat.sub_0_r in H. tauto.
  - intros H.
    apply (Permutation_in _ (Permutation_sym (sorted_desc_perm _))).
    apply enumerate_from_In. rewrite Nat.sub_0_r. split; [lia | assumption].
Qed.

Lemma others_sorted_length (row : list S) (i : nat) :
  i < List.length row ->
  List.length (filter (other i) (sorted_desc (enumerate row))) = List.length row - 1.
Proof.
  intros Hi.
  rewrite (Permutation_length (filter_perm (other i) (sorted_desc_perm (enumerate row)))).
  unfold enumerate. rewrite others_length.
  replace (0 <=? i) with true by (symmetry; apply Nat.leb_le; lia).
  replace (i <? 0 + List.length row) with true by (symmetry; apply Nat.ltb_lt; lia).
  reflexivity.
Qed.

(** On a square matrix the ranking of a row of the frame succeeds, with
    as many recommendations as there are other rows, up to [top]. *)
Lemma ranking_square (top : nat) (w : worker S) (i : nat) :
  square w -> i < List.length (df w) ->
  exists recs, ranking top w i = finished recs /\
               List.length recs = Nat.min (Nat.max 1 top) (List.length (df w) - 1).
Proof.
  intros [Hlen Hrows] Hi. unfold ranking.
  destruct (nth_error (cosine_sim w) i) as [row |] eqn:Er.
  2:{ apply nth_error_None in Er. lia. }
  assert (Hrow : List.length row = List.length (df w)).
  { rewrite Forall_forall in Hrows. apply Hrows. eapply nth_error_In. eassumption. }
  destruct (@labelled_total S (df w) (picked top i (sorted_desc (enumerate row))))
    as (recs & Hl).
  { rewrite Forall_forall. intros p Hp. apply picked_incl in Hp.
    destruct Hp as [Hp _]. apply sorted_enumerate_In in Hp.
    rewrite <- Hrow. apply nth_error_Some. congruence. }
  exists recs. rewrite Hl. split; [reflexivity |].
  rewrite (labelled_length _ _ Hl). unfold picked, picked_from.
  rewrite length_firstn, Nat.sub_0_r, others_sorted_length by lia.
  now rewrite Hrow.
Qed.

End SquareFacts.

(* ----------------------------------------------------------------- *)
(** ** The claims about [run] *)

Section RunClaims.
Context {S : Type} {lt : ScoreLt S}.

(** C2.  Whenever [run] emits recommendations, for any limit [top], they
    are the titles and scores of the rows [recommended top w], in that
    order; the scores do not increase along the result, and of two rows
    with equal scores the one with the smaller row number comes first:
    descending score, then ascending corpus index. *)
Theorem C2_descending_then_row_order
        (laws : StrictWeak S) (top : nat) (w : worker S)
        (recs : list (recommendation S)) :
  snd (run_top top w) = finished recs ->
  labelled (df w) (recommended top w) = Some recs /\
  StronglySorted ranks_before (recommended top w) /\
  StronglySorted (fun a b => score_ltb a b = false) (map snd recs).
Proof.
  intros Hrun. pose proof (finished_recommended _ _ Hrun) as Hl.
  assert (Hs : StronglySorted ranks_before (recommended top w)).
  { unfold recommended.
    destruct (resolve (df w) (movie_title w)); try constructor.
    destruct (nth_error (cosine_sim w) movie_index) as [row |]; [| constructor].
    unfold picked, picked_from. apply sorted_firstn, sorted_filter.
    apply sorted_enumerate_from. }
  split; [assumption |]. split; [assumption |].
  rewrite (labelled_scores _ _ Hl).
  clear Hl Hrun. induction Hs as [| p l Hs IH Hp]; simpl; constructor.
  - assumption.
  - rewrite Forall_forall in Hp |- *. intros s Hin.
    apply in_map_iff in Hin. destruct Hin as (q & <- & Hq).
    apply (Hp q Hq).
Qed.

(** C3, as amended.  The row a query resolves to is never among the
    recommended rows; so a movie's exact title never brings back that
    movie itself when no earlier row has the same lower-cased title. *)
Theorem C3_resolved_row_excluded (top : nat) (w : worker S) :
  (forall i, resolve (df w) (movie_title w) = Found i ->
             ~ In i (map fst (recommended top w))) /\
  (forall i r t,
      nth_error (df w) i = Some r -> title r = Some t -> movie_title w = t ->
      (forall j r', j < i -> nth_error (df w) j = Some r' ->
                    option_map Text.lower (title r') <> Some (Text.lower t)) ->
      resolve (df w) (movie_title w) = Found i /\
      ~ In i (map fst (recommended top w))).
Proof.
  split.
  - intros i. apply recommended_not_resolved.
  - intros i r t Hr Ht Hq Hfirst.
    assert (resolve (df w) (movie_title w) = Found i) as Hres.
    { rewrite Hq. eapply resolve_own_title; eassumption. }
    split; [assumption | now apply recommended_not_resolved].
Qed.

(** C4.  On a corpus of n movies with its n-by-n matrix, a query that
    resolves gets min(20, n-1) recommendations and no error: at most 20,
    and none exactly when the corpus has that one movie only. *)
Theorem C4_result_length (w : worker S) (i : nat) :
  square w -> resolve (df w) (movie_title w) = Found i ->
  exists recs,
    snd (run w) = finished recs /\
    List.length recs = Nat.min top_n (List.length (df w) - 1) /\
    List.length recs <= top_n /\
    (List.length recs = 0 <-> List.length (df w) = 1).
Proof.
  intros Hsq Hres.
  destruct (resolve_found_row _ _ Hres) as (r & Hr).
  assert (Hi : i < List.length (df w)) by (apply nth_error_Some; congruence).
  destruct (ranking_square top_n Hsq Hi) as (recs & Hrank & Hlen).
  exists recs. unfold run. rewrite run_top_unfold, Hres. cbn [snd].
  change (Nat.max 1 top_n) with top_n in Hlen.
  split; [assumption |]. split; [assumption |].
  unfold top_n in *. split; lia.
Qed.

(** C10.  On a non-empty frame in which every movie has a non-empty
    title, the empty query never ends in the not-found message: it
    resolves to row 0 and [run] emits the ranking of row 0, the same
    signal as for the first movie's own title; on a square matrix that
    signal carries recommendations. *)
Theorem C10_empty_query_resolves_to_first_row
        (w : worker S) (r0 : Row) (rest : DataFrame) (t0 : string) :
  df w = r0 :: rest ->
  Forall (fun r => exists t, title r = Some t /\ t <> EmptyString) (df w) ->
  title r0 = Some t0 ->
  movie_title w = EmptyString ->
  resolve (df w) (movie_title w) = Found 0 /\
  (forall movie, snd (run w) <> error (not_found movie)) /\
  snd (run w) = ranking top_n w 0 /\
  snd (run w) =
    snd (run {| movie_title := t0; df := df w; cosine_sim := cosine_sim w |}) /\
  (square w -> exists recs, snd (run w) = finished recs).
Proof.
  intros Hdf Htitles Ht0 Hq.
  assert (Hres : resolve (df w) (movie_title w) = Found 0).
  { rewrite Hq, Hdf. apply resolve_empty_query. now rewrite <- Hdf. }
  assert (Hrun : snd (run w) = ranking top_n w 0).
  { unfold run. rewrite run_top_unfold, Hres. reflexivity. }
  split; [assumption |].
  split.
  { intros movie. rewrite Hrun. unfold ranking.
    destruct (nth_error (cosine_sim w) 0); [| discriminate].
    destruct (labelled (df w) _); discriminate. }
  split; [assumption |].
  split.
  { rewrite Hrun. unfold run. rewrite run_top_unfold. cbn [snd df movie_title].
    rewrite (@resolve_own_title (df w) 0 r0 t0).
    - reflexivity.
    - rewrite Hdf. reflexivity.
    - assumption.
    - intros j r' Hj. lia. }
  intros Hsq. rewrite Hrun.
  destruct (@ranking_square S lt top_n w 0 Hsq) as (recs & Hr & _).
  - rewrite Hdf. simpl. lia.
  - eauto.
Qed.

End RunClaims.

(** C3, the claim as it stands, fails on duplicate titles: "Heat" resolves
    to row 0, the first movie of that title, and row 1, whose exact title
    the query is, is recommended. *)
Lemma C3_counterexample :
  nth_error (df (Example.ask_twins "Heat")) 1 = Some (Example.movie "Heat" "Comedy") /\
  title (Example.movie "Heat" "Comedy") = Some "Heat"%string /\
  movie_title (Example.ask_twins "Heat") = "Heat"%string /\
  resolve Example.twins "Heat" = Found 0 /\
  In 1 (map fst (recommended top_n (Example.ask_twins "Heat"))) /\
  snd (run (Example.ask_twins "Heat")) = finished [(Some "Heat"%string, 0%Q)].
Proof.
  repeat split; try (vm_compute; reflexivity).
  vm_compute. left. reflexivity.
Qed.

(* ----------------------------------------------------------------- *)
(** ** The claims about the similarity matrix *)

Lemma cosine_similarity_entry (X : list (list nat)) (i j : nat) :
  entry (Cosine.cosine_similarity X) i j =
  match nth_error X i, nth_error X j with
  | Some a, Some b => Some (Cosine.score a b)
  | _, _ => None
  end.
Proof.
  unfold entry, Cosine.cosine_similarity. rewrite nth_error_map.
  destruct (nth_error X i) as [a |]; simpl; [| reflexivity].
  rewrite nth_error_map. destruct (nth_error X j); reflexivity.
Qed.




(** C6.  The score is symmetric, and so is the similarity matrix:
    entry (i, j) equals entry (j, i), exactly. *)
Theorem C6_similarity_symmetric :
  (forall a b : list nat, Cosine.score a b = Cosine.score b a) /\
  (forall (X : list (list nat)) (i j : nat),
      entry (Cosine.cosine_similarity X) i j =
      entry (Cosine.cosine_similarity X) j i).
Proof.
  split.
  - apply CosineFacts.score_comm.
  - intros X i j. rewrite !cosine_similarity_entry.
    destruct (nth_error X i) as [a |], (nth_error X j) as [b |]; try reflexivity.
    now rewrite CosineFacts.score_comm.
Qed.

(* ----------------------------------------------------------------- *)
(** ** The claims about loading *)

Module LoaderFacts.
Import Vectorizer Loader.

Lemma insert_token_not_nil (t : string) (v : list string) : insert_token t v <> [].
Proof.
  destruct v as [| u v]; simpl; [discriminate |].
  destruct (String.compare t u); discriminate.
Qed.

Lemma fold_insert_not_nil : forall (ts v : list string),
    v <> [] -> fold_left (fun v t => insert_token t v) ts v <> [].
Proof.
  induction ts as [| t ts IH]; intros v Hv; simpl; [assumption |].
  apply IH, insert_token_not_nil.
Qed.

Lemma concat_nil (A : Type) : forall ls : list (list A),
    List.concat ls = [] <-> Forall (fun l => l = []) ls.
Proof.
  induction ls as [| l ls IH]; simpl.
  - split; [constructor | reflexivity].
  - split.
    + intros H. apply app_eq_nil in H. destruct H as [-> H].
      constructor; [reflexivity | now apply IH].
    + intros H. inversion H; subst. simpl. now apply IH.
Qed.

(** The vocabulary is empty exactly when no document has a token. *)
Lemma vocabulary_nil (docs : list string) :
  vocabulary docs = [] <-> Forall (fun d => tokenize d = []) docs.
Proof.
  assert (E : Forall (fun d => tokenize d = []) docs <->
              List.concat (map tokenize docs) = []).
  { rewrite concat_nil, Forall_map. reflexivity. }
  rewrite E. unfold vocabulary.
  destruct (List.concat (map tokenize docs)) as [| t ts]; cbn [fold_left].
  - tauto.
  - split; [| discriminate]. intros H. exfalso.
    revert H. apply fold_insert_not_nil, insert_token_not_nil.
Qed.

Lemma documents (rows : DataFrame) :
  map (fun r => Pandas.str (combined_features r))
      (map add_combined (map fill_features rows)) =
  map (fun r => combine_features (fill_features r)) rows.
Proof. rewrite !map_map. reflexivity. Qed.

(** Loading succeeds exactly when the vocabulary is not empty. *)
Lemma load_frame (rows : DataFrame) :
  load_and_process_data (Frame rows) =
  match count_matrix rows with
  | Some X => Loaded (map add_combined (map fill_features rows))
                     (Cosine.cosine_similarity X)
  | None => Exit_error ValueError_empty_vocabulary
  end.
Proof.
  unfold load_and_process_data, count_matrix. rewrite documents. reflexivity.
Qed.

Lemma cosine_similarity_square (X : list (list nat)) :
  List.length (Cosine.cosine_similarity X) = List.length X /\
  Forall (fun row => List.length row = List.length X) (Cosine.cosine_similarity X).
Proof.
  unfold Cosine.cosine_similarity. split; [apply length_map |].
  rewrite Forall_forall. intros row Hrow.
  apply in_map_iff in Hrow. destruct Hrow as (a & <- & _). apply length_map.
Qed.

(** What the loader hands to the workers is a frame with its square
    matrix, one row and one column per movie of the data set. *)
Theorem loaded_square (rows frame : DataFrame) (sim : list (list R)) (query : string) :
  load_and_process_data (Frame rows) = Loaded frame sim ->
  List.length frame = List.length rows /\
  square {| movie_title := query; df := frame; cosine_sim := sim |}.
Proof.
  rewrite load_frame. unfold count_matrix, fit_transform.
  destruct (vocabulary _) as [| t v]; [discriminate |].
  intros H. injection H as <- <-.
  assert (Hlen : List.length (map add_combined (map fill_features rows)) =
                 List.length rows) by now rewrite !length_map.
  split; [assumption |].
  unfold square. cbn [df cosine_sim].
  destruct (cosine_similarity_square
              (transform (t :: v)
                 (map (fun r => combine_features (fill_features r)) rows)))
    as [Hl Hr].
  unfold transform in Hl, Hr |- *. rewrite !length_map in Hl, Hr.
  rewrite Hlen. split; assumption.
Qed.

End LoaderFacts.

(** C7, the claim as it stands, fails: the empty item sequence ends
    start-up exactly as a sequence of one movie without attribute text
    does, in the general handler with the vectorizer's ValueError; the
    failure is not distinct. *)
Lemma C7_counterexample :
  Loader.load_and_process_data (Loader.Frame []) =
    Loader.Exit_error Loader.ValueError_empty_vocabulary /\
  Loader.load_and_process_data (Loader.Frame [Example.blank]) =
    Loader.Exit_error Loader.ValueError_empty_vocabulary /\
  Loader.Frame [Example.blank] <> Loader.Frame [].
Proof.
  repeat split; try (vm_compute; reflexivity). discriminate.
Qed.

(** C7, as amended.  Loading an empty item sequence fails, in the general
    [except Exception] clause ("Error loading data: ...", exit status 1)
    with the vectorizer's empty-vocabulary ValueError; the same failure,
    and no other, is that of every item sequence whose combined attribute
    text has no token. *)
Theorem C7_empty_corpus_general_error :
  Loader.load_and_process_data (Loader.Frame []) =
    Loader.Exit_error Loader.ValueError_empty_vocabulary /\
  (forall rows : DataFrame,
      Loader.load_and_process_data (Loader.Frame rows) =
        Loader.Exit_error Loader.ValueError_empty_vocabulary <->
      Forall (fun r => Vectorizer.tokenize
                         (Loader.combine_features (Loader.fill_features r)) = [])
             rows).
Proof.
  split; [reflexivity |].
  intros rows. rewrite LoaderFacts.load_frame. unfold Loader.count_matrix.
  unfold Vectorizer.fit_transform.
  rewrite <- (Forall_map (fun r => Loader.combine_features (Loader.fill_features r))
                         (fun d => Vectorizer.tokenize d = [])).
  rewrite <- LoaderFacts.vocabulary_nil.
  destruct (Vectorizer.vocabulary _) as [| t v]; split; intros H;
    try reflexivity; discriminate.
Qed.

(* ----------------------------------------------------------------- *)
(** ** The window's state across calls *)

Section StateClaims.
Context {S : Type} {lt : ScoreLt S}.

Lemma get_recommendations_state (text : string) (g : gui S) :
  gui_df (fst (get_recommendations text g)) = gui_df g /\
  gui_cosine_sim (fst (get_recommendations text g)) = gui_cosine_sim g.
Proof.
  unfold get_recommendations. destruct (strip text); [split; reflexivity |].
  unfold run. rewrite run_top_unfold. split; reflexivity.
Qed.

Lemma get_recommendations_signal (text : string) (g : gui S) :
  snd (get_recommendations text g) =
  match strip text with
  | EmptyString => None
  | query =>
      Some (snd (run {| movie_title := query; df := gui_df g;
                        cosine_sim := gui_cosine_sim g |}))
  end.
Proof.
  unfold get_recommendations. destruct (strip text); [reflexivity |].
  unfold run. rewrite run_top_unfold. reflexivity.
Qed.

(** C8.  A call that ends in an error signal (not found, or any
    exception) leaves the frame and the similarity matrix of the window
    as they were, and every later call emits what it would have emitted
    without the failed one. *)
Theorem C8_failed_call_leaves_state
        (g g' : gui S) (text : string) (m : error_message) :
  get_recommendations text g = (g', Some (error m)) ->
  gui_df g' = gui_df g /\
  gui_cosine_sim g' = gui_cosine_sim g /\
  forall text', snd (get_recommendations text' g') =
                snd (get_recommendations text' g).
Proof.
  intros H. destruct (get_recommendations_state text g) as [Hd Hs].
  rewrite H in Hd, Hs. cbn [fst] in Hd, Hs.
  split; [assumption |]. split; [assumption |].
  intros text'. rewrite !get_recommendations_signal, Hd, Hs. reflexivity.
Qed.

End StateClaims.

(* ----------------------------------------------------------------- *)
(** ** The theorems at the sample data *)

(** C2 at the query "alien" with limit 2: "Avatar" and "Avengers" tie at
    1/2 and come in row order. *)
Lemma C2_witness :
  StrictWeak Q /\
  snd (run_top 2 (Example.ask "alien")) =
    finished [(Some "Avatar", 1 # 2); (Some "Avengers", 1 # 2)]%Q%string /\
  (labelled (df (Example.ask "alien")) (recommended 2 (Example.ask "alien")) =
     Some [(Some "Avatar", 1 # 2); (Some "Avengers", 1 # 2)]%Q%string /\
   StronglySorted ranks_before (recommended 2 (Example.ask "alien")) /\
   StronglySorted (fun a b => score_ltb a b = false)
     (map snd [(Some "Avatar", 1 # 2); (Some "Avengers", 1 # 2)]%Q%string)).
Proof.
  split; [exact Q_strict_weak |].
  split; [reflexivity |].
  apply (@C2_descending_then_row_order Q Q_score Q_strict_weak 2 (Example.ask "alien")).
  reflexivity.
Defined.

(** C4 at the query "avatar": three recommendations for four movies. *)
Lemma C4_witness :
  square (Example.ask "avatar") /\
  resolve (df (Example.ask "avatar")) (movie_title (Example.ask "avatar")) = Found 0 /\
  exists recs,
    snd (run (Example.ask "avatar")) = finished recs /\
    List.length recs = Nat.min top_n (List.length (df (Example.ask "avatar")) - 1) /\
    List.length recs <= top_n /\
    (List.length recs = 0 <-> List.length (df (Example.ask "avatar")) = 1).
Proof.
  assert (Hsq : square (Example.ask "avatar")).
  { split; [reflexivity | repeat constructor]. }
  split; [exact Hsq |].
  split; [reflexivity |].
  apply (@C4_result_length Q Q_score (Example.ask "avatar") 0 Hsq).
  reflexivity.
Defined.

(** C8 at a query that is not found. *)
Lemma C8_witness :
  get_recommendations " zardoz " Example.window =
    (fst (get_recommendations " zardoz " Example.window),
     Some (error (not_found "zardoz"))) /\
  (gui_df (fst (get_recommendations " zardoz " Example.window)) =
     gui_df Example.window /\
   gui_cosine_sim (fst (get_recommendations " zardoz " Example.window)) =
     gui_cosine_sim Example.window /\
   forall text',
     snd (get_recommendations text'
            (fst (get_recommendations " zardoz " Example.window))) =
     snd (get_recommendations text' Example.window)).
Proof.
  split; [reflexivity |].
  apply (@C8_failed_call_leaves_state Q Q_score Example.window
           (fst (get_recommendations " zardoz " Example.window))
           " zardoz " (not_found "zardoz")).
  reflexivity.
Defined.

(** C10 at the sample corpus. *)
Lemma C10_witness :
  df (Example.ask "") = Example.movie "Avatar" "Action Adventure" :: tl Example.corpus /\
  Forall (fun r => exists t, title r = Some t /\ t <> EmptyString) (df (Example.ask "")) /\
  title (Example.movie "Avatar" "Action Adventure") = Some "Avatar"%string /\
  movie_title (Example.ask "") = EmptyString /\
  (resolve (df (Example.ask "")) (movie_title (Example.ask "")) = Found 0 /\
   (forall movie, snd (run (Example.ask "")) <> error (not_found movie)) /\
   snd (run (Example.ask "")) = ranking top_n (Example.ask "") 0 /\
   snd (run (Example.ask "")) =
     snd (run {| movie_title := "Avatar"; df := df (Example.ask "");
                 cosine_sim := cosine_sim (Example.ask "") |}) /\
   (square (Example.ask "") -> exists recs, snd (run (Example.ask "")) = finished recs)).
Proof.
  assert (Ht : Forall (fun r => exists t, title r = Some t /\ t <> EmptyString)
                      (df (Example.ask ""))).
  { repeat constructor; eexists; (split; [reflexivity | discriminate]). }
  split; [reflexivity |].
  split; [exact Ht |].
  split; [reflexivity |].
  split; [reflexivity |].
  apply (@C10_empty_query_resolves_to_first_row Q Q_score (Example.ask "")
           (Example.movie "Avatar" "Action Adventure") (tl Example.corpus) "Avatar");
    [reflexivity | exact Ht | reflexivity | reflexivity].
Defined.

(* ================================================================= *)
(** * Further properties of the worker *)

(* ----------------------------------------------------------------- *)
(** ** Resolution of queries without special characters *)

Lemma starts_with_refl (p : list ascii) : Text.starts_with p p = true.
Proof.
  induction p as [| c p IH]; simpl; [reflexivity |].
  rewrite IH. unfold Text.ascii_eqb. now rewrite Ascii.eqb_refl.
Qed.

Lemma contains_literal_refl (t : string) : Text.contains_literal t t = true.
Proof.
  unfold Text.contains_literal. destruct (Text.chars t) as [| c s] eqn:E.
  - reflexivity.
  - cbn [Text.occurs_in]. now rewrite starts_with_refl.
Qed.

(** An empty selection: the mask is false at every row. *)
Lemma select_from_empty : forall (frame : DataFrame) (mask : list bool) n i r,
    Pandas.select_from n frame mask = [] ->
    nth_error frame i = Some r -> nth_error mask i = Some true -> False.
Proof.
  induction frame as [| r0 frame IH]; intros mask n i r H Hr Hm.
  - destruct i; discriminate.
  - destruct mask as [| b mask]; [destruct i; discriminate |].
    cbn [Pandas.select_from] in H. destruct i as [| i].
    + simpl in Hm. injection Hm as ->. discriminate.
    + destruct b; [discriminate |]. simpl in H, Hr, Hm. eauto.
Qed.

Lemma substring_mask_nth (frame : DataFrame) (query : string) (i : nat) (r : Row) :
  nth_error frame i = Some r ->
  nth_error (substring_mask frame query) i =
  Some match title r with
       | Some t => Text.contains_literal (Text.lower query) (Text.lower t)
       | None => false
       end.
Proof.
  intros Hr. unfold substring_mask, Pandas.title_lower.
  rewrite map_map, nth_error_map, Hr. simpl. destruct (title r); reflexivity.
Qed.

Lemma eq_mask_nth (frame : DataFrame) (query : string) (i : nat) (r : Row) :
  nth_error frame i = Some r ->
  nth_error (Pandas.eq_str (Pandas.title_lower frame) (Text.lower query)) i =
  Some match title r with
       | Some t => String.eqb (Text.lower t) (Text.lower query)
       | None => false
       end.
Proof.
  intros Hr. unfold Pandas.eq_str, Pandas.title_lower.
  rewrite map_map, nth_error_map, Hr. simpl. destruct (title r); reflexivity.
Qed.

(** X1.  For a query without regular-expression special characters the
    worker finds nothing exactly when no title contains the query, case
    ignored; and when it resolves the query, the title of the resolved
    row contains it.  Such a query never ends in a pattern error. *)
Theorem plain_query_resolution (frame : DataFrame) (query : string) :
  plain (Text.chars (Text.lower query)) ->
  (resolve frame query = Missing <->
   forall r t, In r frame -> title r = Some t ->
               Text.contains_literal (Text.lower query) (Text.lower t) = false) /\
  (forall i, resolve frame query = Found i ->
             exists r t, nth_error frame i = Some r /\ title r = Some t /\
                         Text.contains_literal (Text.lower query) (Text.lower t) = true) /\
  resolve frame query <> PatternError /\
  resolve frame query <> Outside.
Proof.
  intros Hp. rewrite (resolve_plain frame query Hp). unfold Pandas.select.
  destruct (Pandas.select_from 0 frame
              (Pandas.eq_str (Pandas.title_lower frame) (Text.lower query)))
    as [| [k r] rest] eqn:Ex.
  - destruct (Pandas.select_from 0 frame (substring_mask frame query))
      as [| [k r] rest] eqn:Es.
    + split; [| split; [intros i H; discriminate | split; discriminate]].
      split; [| reflexivity]. intros _ r t Hin Ht.
      apply In_nth_error in Hin. destruct Hin as (i & Hi).
      destruct (Text.contains_literal (Text.lower query) (Text.lower t)) eqn:E;
        [| reflexivity].
      exfalso. eapply select_from_empty; [exact Es | exact Hi |].
      rewrite (@substring_mask_nth frame query i r Hi), Ht, E. reflexivity.
    + apply select_from_inv in Es. destruct Es as (i & -> & Hr & Hm & _).
      rewrite (@substring_mask_nth frame query i r Hr) in Hm.
      destruct (title r) as [t |] eqn:Ht; [| discriminate].
      injection Hm as Hm.
      split; [| split; [| split; discriminate]].
      * split; [discriminate |]. intros H. exfalso.
        rewrite (H r t (nth_error_In _ _ Hr) Ht) in Hm. discriminate.
      * intros j H. injection H as <-. simpl. eauto.
  - apply select_from_inv in Ex. destruct Ex as (i & -> & Hr & Hm & _).
    rewrite (@eq_mask_nth frame query i r Hr) in Hm.
    destruct (title r) as [t |] eqn:Ht; [| discriminate].
    injection Hm as Hm. apply String.eqb_eq in Hm.
    assert (Hc : Text.contains_literal (Text.lower query) (Text.lower t) = true)
      by (rewrite Hm; apply contains_literal_refl).
    split; [| split; [| split; discriminate]].
    + split; [discriminate |]. intros H. exfalso.
      rewrite (H r t (nth_error_In _ _ Hr) Ht) in Hc. discriminate.
    + intros j H. injection H as <-. simpl. eauto.
Qed.

(** X1 at the sample corpus and the query "VENGER". *)
Lemma plain_query_resolution_witness :
  plain (Text.chars (Text.lower "VENGER")) /\
  resolve Example.corpus "VENGER" = Found 1 /\
  ((resolve Example.corpus "VENGER" = Missing <->
    forall r t, In r Example.corpus -> title r = Some t ->
                Text.contains_literal (Text.lower "VENGER") (Text.lower t) = false) /\
   (forall i, resolve Example.corpus "VENGER" = Found i ->
              exists r t, nth_error Example.corpus i = Some r /\ title r = Some t /\
                          Text.contains_literal (Text.lower "VENGER") (Text.lower t) = true) /\
   resolve Example.corpus "VENGER" <> PatternError /\
   resolve Example.corpus "VENGER" <> Outside).
Proof.
  assert (Hp : plain (Text.chars (Text.lower "VENGER"))) by (repeat constructor).
  split; [exact Hp |]. split; [reflexivity |].
  apply (plain_query_resolution Example.corpus "VENGER" Hp).
Defined.

(* ----------------------------------------------------------------- *)
(** ** Titles typed in full, and queries that are not patterns *)

Section FullTitles.
Context {S : Type} {lt : ScoreLt S}.

Lemma resolve_lower_eq (frame : DataFrame) (q q' : string) :
  Text.lower q = Text.lower q' -> resolve frame q = resolve frame q'.
Proof. intros E. unfold resolve. rewrite E. reflexivity. Qed.

(** X2.  A title typed in full, in any letter case, reaches the first
    movie of that title and the worker emits that movie's ranking:
    the first stage decides, and the title is never read as a pattern,
    whatever special characters it has. *)
Theorem full_title_reaches_its_movie (w : worker S) (i : nat) (r : Row) (t : string) :
  nth_error (df w) i = Some r -> title r = Some t ->
  Text.lower (movie_title w) = Text.lower t ->
  (forall j r', j < i -> nth_error (df w) j = Some r' ->
                option_map Text.lower (title r') <> Some (Text.lower t)) ->
  resolve (df w) (movie_title w) = Found i /\
  snd (run w) = ranking top_n w i.
Proof.
  intros Hr Ht Hq Hfirst.
  assert (Hres : resolve (df w) (movie_title w) = Found i).
  { rewrite (resolve_lower_eq (df w) _ _ Hq). eapply resolve_own_title; eassumption. }
  split; [assumption |].
  unfold run. rewrite run_top_unfold, Hres. reflexivity.
Qed.

End FullTitles.

(** X2 at the title "M*A*S*H", typed in lower case: as a pattern it would
    match "Heat" in row 0, and it is not a substring of any title, yet it
    resolves to its own row 2. *)
Lemma full_title_reaches_its_movie_witness :
  nth_error (df (Sample.ask_odd "m*a*s*h")) 2 = Some (Example.movie "M*A*S*H" "Comedy War") /\
  title (Example.movie "M*A*S*H" "Comedy War") = Some "M*A*S*H"%string /\
  Text.lower (movie_title (Sample.ask_odd "m*a*s*h")) = Text.lower "M*A*S*H" /\
  Pandas.str_contains (Pandas.title_lower Sample.odd) "m*a*s*h" =
    Pandas.Mask [true; false; true] /\
  (resolve (df (Sample.ask_odd "m*a*s*h")) (movie_title (Sample.ask_odd "m*a*s*h")) = Found 2 /\
   snd (run (Sample.ask_odd "m*a*s*h")) = ranking top_n (Sample.ask_odd "m*a*s*h") 2).
Proof.
  split; [reflexivity |]. split; [reflexivity |]. split; [reflexivity |].
  split; [vm_compute; reflexivity |].
  apply (@full_title_reaches_its_movie Q Q_score (Sample.ask_odd "m*a*s*h") 2
           (Example.movie "M*A*S*H" "Comedy War") "M*A*S*H");
    [reflexivity | reflexivity | reflexivity |].
  intros j r' Hj Hr'.
  destruct j as [| [| j]]; [| | lia]; simpl in Hr'; injection Hr' as <-;
    simpl; discriminate.
Defined.

Module RejectedFacts.
Import Regex.

Lemma parse_plain_app : forall p q stack cur,
    plain p -> parse stack cur (p ++ q) = parse stack (fold_left push_chr p cur) q.
Proof.
  induction p as [| c p IH]; intros q stack cur Hp.
  - reflexivity.
  - inversion Hp as [| ? ? Hc Hp']; subst.
    destruct (LiteralFacts.not_special _ Hc) as (H1 & H2 & H3 & H4 & H5 & H6 & H7 & H8).
    cbn [app parse fold_left].
    rewrite H1, H2, H3, H4, H5, H6, H7, H8, Hc.
    apply IH. assumption.
Qed.

Lemma is_char_eq (n : nat) (c : ascii) : is_char n c = true -> c = ascii_of_nat n.
Proof.
  unfold is_char. intros H. apply Nat.eqb_eq in H.
  rewrite <- H. symmetry. apply ascii_nat_embedding.
Qed.

(** [re.compile] raises on every pattern of these shapes. *)
Lemma parse_rejected (p : list ascii) :
  rejected p -> parse [] empty_frame p = ReError.
Proof.
  intros H. destruct H as [p rest Hp | c rest Hc | p Hp | p p' Hp Hp'].
  - rewrite (parse_plain_app _ _ _ Hp). reflexivity.
  - apply orb_true_iff in Hc. destruct Hc as [Hc | Hc];
      [apply orb_true_iff in Hc; destruct Hc as [Hc | Hc] |];
      apply is_char_eq in Hc; subst; reflexivity.
  - rewrite (parse_plain_app _ _ _ Hp). reflexivity.
  - rewrite (parse_plain_app _ _ _ Hp). cbn [parse].
    change (is_char 92 (ascii_of_nat 40)) with false.
    change (is_char 46 (ascii_of_nat 40)) with false.
    change (is_char 42 (ascii_of_nat 40)) with false.
    change (is_char 43 (ascii_of_nat 40)) with false.
    change (is_char 63 (ascii_of_nat 40)) with false.
    change (is_char 124 (ascii_of_nat 40)) with false.
    change (is_char 40 (ascii_of_nat 40)) with true.
    cbv iota.
    destruct p' as [| d p']; [reflexivity |].
    inversion Hp' as [| ? ? Hd _]; subst.
    destruct (LiteralFacts.not_special _ Hd) as (_ & _ & _ & _ & H5 & _).
    rewrite H5. rewrite (LiteralFacts.parse_plain _ _ Hp'). reflexivity.
Qed.

End RejectedFacts.

Section BadPatterns.
Context {S : Type} {lt : ScoreLt S}.

(** X3.  A query of one of the rejected shapes (for instance with a
    closing parenthesis that was never opened, or a parenthesis that is
    opened and not closed) that is not itself a title ends in
    "An error occurred: ...", not in the not-found message and not in
    recommendations, whatever the titles are. *)
Theorem rejected_query_is_an_error (w : worker S) :
  rejected (Text.chars (Text.lower (movie_title w))) ->
  Pandas.select (df w)
    (Pandas.eq_str (Pandas.title_lower (df w)) (Text.lower (movie_title w))) = [] ->
  snd (run w) = error (occurred re_error).
Proof.
  intros Hrej Hx. unfold run. rewrite run_top_unfold. cbn [snd].
  rewrite (@resolve_bad_pattern (df w) (movie_title w)); [reflexivity | | assumption].
  unfold Regex.compile. now apply RejectedFacts.parse_rejected.
Qed.

End BadPatterns.

(** X3 at the query "Avatar (2009". *)
Lemma rejected_query_is_an_error_witness :
  rejected (Text.chars (Text.lower (movie_title (Example.ask "Avatar (2009")))) /\
  Pandas.select (df (Example.ask "Avatar (2009"))
    (Pandas.eq_str (Pandas.title_lower (df (Example.ask "Avatar (2009")))
       (Text.lower (movie_title (Example.ask "Avatar (2009")))) = [] /\
  snd (run (Example.ask "Avatar (2009")) = error (occurred re_error).
Proof.
  assert (Hrej : rejected (Text.chars (Text.lower (movie_title (Example.ask "Avatar (2009"))))).
  { apply (rejected_open (p := Text.chars "avatar ") (p' := Text.chars "2009"));
      repeat constructor. }
  split; [exact Hrej |]. split; [reflexivity |].
  apply (@rejected_query_is_an_error Q Q_score (Example.ask "Avatar (2009") Hrej).
  reflexivity.
Defined.

(* ----------------------------------------------------------------- *)
(** ** What the recommendations consist of *)

Section ResultFacts.
Context {S : Type} {lt : ScoreLt S}.

Lemma enumerate_from_rows : forall (row : list S) n,
    map fst (enumerate_from n row) = seq n (List.length row).
Proof.
  induction row as [| x row IH]; intros n; simpl; [reflexivity | now rewrite IH].
Qed.

Lemma NoDup_rows_filter (f : nat * S -> bool) : forall l : list (nat * S),
    NoDup (map fst l) -> NoDup (map fst (filter f l)).
Proof.
  induction l as [| x l IH]; simpl; intros H; [constructor |].
  inversion H as [| ? ? Hx Hl]; subst.
  destruct (f x); [| auto]. simpl. constructor; [| auto].
  intros Hin. apply Hx. apply in_map_iff in Hin. destruct Hin as (y & E & Hy).
  apply in_map_iff. exists y. split; [assumption |].
  apply filter_In in Hy. tauto.
Qed.

Lemma NoDup_rows_firstn : forall n (l : list (nat * S)),
    NoDup (map fst l) -> NoDup (map fst (firstn n l)).
Proof.
  induction n as [| n IH]; intros l H; simpl; [constructor |].
  destruct l as [| x l]; [constructor |].
  simpl in *. inversion H as [| ? ? Hx Hl]; subst.
  constructor; [| auto].
  intros Hin. apply Hx. apply in_map_iff in Hin. destruct Hin as (y & E & Hy).
  apply in_map_iff. exists y. split; [assumption | eapply firstn_In; eassumption].
Qed.

Lemma sorted_rows_NoDup (row : list S) :
  NoDup (map fst (sorted_desc (enumerate row))).
Proof.
  apply (Permutation_NoDup (l := map fst (enumerate row))).
  - apply Permutation_map, Permutation_sym, sorted_desc_perm.
  - unfold enumerate. rewrite enumerate_from_rows. apply seq_NoDup.
Qed.

Lemma recommended_NoDup (top : nat) (w : worker S) :
  NoDup (map fst (recommended top w)).
Proof.
  unfold recommended.
  destruct (resolve (df w) (movie_title w)) as [i | | |]; try constructor.
  destruct (nth_error (cosine_sim w) i) as [row |]; [| constructor].
  unfold picked, picked_from.
  apply NoDup_rows_firstn, NoDup_rows_filter, sorted_rows_NoDup.
Qed.

Lemma labelled_rows : forall (frame : DataFrame) (picks : list (nat * S)) recs,
    labelled frame picks = Some recs ->
    Forall2 (fun p rec => exists r, nth_error frame (fst p) = Some r /\
                                    rec = (title r, snd p)) picks recs.
Proof.
  induction picks as [| p picks IH]; intros recs H; simpl in H.
  - injection H as <-. constructor.
  - destruct (nth_error frame (fst p)) as [r |] eqn:Er; [| discriminate].
    destruct (labelled frame picks) as [recs' |]; [| discriminate].
    injection H as <-. constructor; eauto.
Qed.

Lemma labelled_fails : forall (frame : DataFrame) (picks : list (nat * S)),
    labelled frame picks = None <->
    exists p, In p picks /\ List.length frame <= fst p.
Proof.
  induction picks as [| p picks IH]; simpl.
  - split; [discriminate | intros (p & [] & _)].
  - destruct (nth_error frame (fst p)) as [r |] eqn:Er.
    + destruct (labelled frame picks) as [recs |].
      * split; [discriminate |]. intros (q & [<- | Hq] & Hlen).
        -- apply nth_error_None in Hlen. congruence.
        -- destruct IH as [_ IH]. assert (E : Some recs = None) by (apply IH; eauto).
           discriminate.
      * split; [| reflexivity]. intros _.
        destruct IH as [IH _]. destruct (IH eq_refl) as (q & Hq & Hlen). eauto.
    + split; [| reflexivity]. intros _. exists p.
      split; [now left | now apply nth_error_None].
Qed.

(** X4.  Whatever the matrix, the recommendations the worker emits are at
    most 20, they stand for distinct rows of the frame, and none of them
    is listed twice. *)
Theorem recommendations_distinct_rows (w : worker S) (recs : list (recommendation S)) :
  snd (run w) = finished recs ->
  List.length recs <= top_n /\
  List.length (recommended top_n w) = List.length recs /\
  NoDup (map fst (recommended top_n w)) /\
  Forall (fun p => fst p < List.length (df w)) (recommended top_n w).
Proof.
  intros Hrun. apply finished_recommended in Hrun.
  pose proof (labelled_length _ _ Hrun) as Hlen.
  split.
  { rewrite Hlen. unfold recommended.
    destruct (resolve (df w) (movie_title w)) as [i | | |]; simpl; try lia.
    destruct (nth_error (cosine_sim w) i) as [row |]; simpl; [| lia].
    unfold picked, picked_from. rewrite length_firstn. unfold top_n. lia. }
  split; [now symmetry |]. split; [apply recommended_NoDup |].
  apply labelled_rows in Hrun. clear Hlen.
  induction Hrun as [| p rec picks recs' Hp _ IH]; constructor; [| assumption].
  destruct Hp as (r & Hr & _). apply nth_error_Some. congruence.
Qed.

Lemma labelled_entries (frame : DataFrame) (row : list S) :
  forall (picks : list (nat * S)) recs,
    labelled frame picks = Some recs ->
    Forall (fun p => nth_error row (fst p) = Some (snd p)) picks ->
    Forall2 (fun p rec =>
               nth_error row (fst p) = Some (snd rec) /\
               option_map title (nth_error frame (fst p)) = Some (fst rec))
            picks recs.
Proof.
  induction picks as [| p picks IH]; intros recs H Hin; simpl in H.
  - injection H as <-. constructor.
  - destruct (nth_error frame (fst p)) as [r |] eqn:Er; [| discriminate].
    destruct (labelled frame picks) as [recs' |]; [| discriminate].
    injection H as <-. inversion Hin as [| ? ? Hp Hin']; subst.
    constructor; [| auto]. simpl. rewrite Er. split; [assumption | reflexivity].
Qed.

(** X5.  Each recommendation is the title of a row of the frame together
    with the entry of the similarity matrix for the resolved movie and
    that row. *)
Theorem recommendation_is_matrix_entry
        (top : nat) (w : worker S) (recs : list (recommendation S)) :
  snd (run_top top w) = finished recs ->
  exists i,
    resolve (df w) (movie_title w) = Found i /\
    Forall2 (fun p rec =>
               entry (cosine_sim w) i (fst p) = Some (snd rec) /\
               option_map title (nth_error (df w) (fst p)) = Some (fst rec))
            (recommended top w) recs.
Proof.
  intros Hrun. pose proof (finished_recommended _ _ Hrun) as Hl.
  rewrite run_top_unfold in Hrun. cbn [snd] in Hrun.
  unfold recommended in *.
  destruct (resolve (df w) (movie_title w)) as [i | | |]; try discriminate.
  exists i. split; [reflexivity |].
  unfold entry.
  destruct (nth_error (cosine_sim w) i) as [row |] eqn:Er.
  2:{ simpl in Hl. injection Hl as <-. constructor. }
  apply (@labelled_entries (df w) row _ _ Hl).
  rewrite Forall_forall. intros p Hp. apply picked_incl in Hp.
  now apply sorted_enumerate_In.
Qed.

Lemma sorted_app_rel (A : Type) (R : A -> A -> Prop) : forall l1 l2 : list A,
    StronglySorted R (l1 ++ l2) ->
    forall x y, In x l1 -> In y l2 -> R x y.
Proof.
  induction l1 as [| a l1 IH]; intros l2 Hs x y Hx Hy.
  - destruct Hx.
  - simpl in Hs. apply StronglySorted_inv in Hs. destruct Hs as [Hs Ha].
    destruct Hx as [<- | Hx].
    + rewrite Forall_forall in Ha. apply Ha. apply in_or_app. now right.
    + eapply IH; eassumption.
Qed.

(** X6.  No movie that is left out scores higher than one that is
    listed: the recommendations are the best-scoring rows other than the
    resolved one. *)
Theorem left_out_scores_no_higher
        (laws : StrictWeak S) (top : nat) (w : worker S)
        (i : nat) (row : list S) (p : nat * S) (j : nat) (s : S) :
  resolve (df w) (movie_title w) = Found i ->
  nth_error (cosine_sim w) i = Some row ->
  In p (recommended top w) ->
  nth_error row j = Some s -> j <> i ->
  ~ In (j, s) (recommended top w) ->
  score_ltb (snd p) s = false.
Proof.
  intros Hres Hrow Hp Hj Hne Hout. unfold recommended in *.
  rewrite Hres, Hrow in *. unfold picked, picked_from in *.
  set (others := filter (other i) (sorted_desc (enumerate row))) in *.
  set (n := Nat.max 1 (top - 0)) in *.
  assert (Hs : StronglySorted ranks_before (firstn n others ++ skipn n others)).
  { rewrite firstn_skipn. apply sorted_filter, sorted_enumerate_from. }
  assert (Hq : In (j, s) others).
  { apply filter_In. split.
    - now apply sorted_enumerate_In.
    - unfold other. simpl. apply negb_true_iff. now apply Nat.eqb_neq. }
  rewrite <- (firstn_skipn n others) in Hq. apply in_app_or in Hq.
  destruct Hq as [Hq | Hq]; [contradiction |].
  destruct (@sorted_app_rel _ _ _ _ Hs p (j, s) Hp Hq) as [H _]. exact H.
Qed.

(** X7.  The worker ends in the index error of the general handler
    exactly when the query resolves to a row the matrix does not have, or
    when one of the entries it picks is not a row of the frame. *)
Theorem index_error_iff (top : nat) (w : worker S) :
  snd (run_top top w) = error (occurred IndexError) <->
  exists i,
    resolve (df w) (movie_title w) = Found i /\
    (List.length (cosine_sim w) <= i \/
     exists p, In p (recommended top w) /\ List.length (df w) <= fst p).
Proof.
  rewrite run_top_unfold. cbn [snd]. unfold ranking, recommended.
  destruct (resolve (df w) (movie_title w)) as [i | | |].
  - destruct (nth_error (cosine_sim w) i) as [row |] eqn:Er.
    + destruct (labelled (df w) (picked top i (sorted_desc (enumerate row))))
        as [recs |] eqn:El.
      * split; [discriminate |]. intros (k & E & [Hlen | (p & Hp & Hlen)]).
        -- injection E as <-. apply nth_error_None in Hlen. congruence.
        -- assert (labelled (df w) (picked top i (sorted_desc (enumerate row))) = None)
             by (apply labelled_fails; eauto).
           congruence.
      * split; [| reflexivity]. intros _. exists i. split; [reflexivity |].
        right. now apply labelled_fails.
    + split; [| reflexivity]. intros _. exists i. split; [reflexivity |].
      left. now apply nth_error_None.
  - split; [discriminate | intros (k & E & _); discriminate].
  - split; [discriminate | intros (k & E & _); discriminate].
  - split; [discriminate | intros (k & E & _); discriminate].
Qed.

End ResultFacts.

(** X4 at the query "avatar". *)
Lemma recommendations_distinct_rows_witness :
  snd (run (Example.ask "avatar")) =
    finished [(Some "Avengers", 1); (Some "Alien", 1 # 2); (Some "Titanic", 0)]%Q%string /\
  (3 <= top_n /\
   List.length (recommended top_n (Example.ask "avatar")) = 3 /\
   NoDup (map fst (recommended top_n (Example.ask "avatar"))) /\
   Forall (fun p => fst p < List.length (df (Example.ask "avatar")))
          (recommended top_n (Example.ask "avatar"))).
Proof.
  split; [reflexivity |].
  apply (@recommendations_distinct_rows Q Q_score (Example.ask "avatar")
           [(Some "Avengers", 1); (Some "Alien", 1 # 2); (Some "Titanic", 0)]%Q%string).
  reflexivity.
Defined.

(** X5 at the query "alien" with limit 2. *)
Lemma recommendation_is_matrix_entry_witness :
  snd (run_top 2 (Example.ask "alien")) =
    finished [(Some "Avatar", 1 # 2); (Some "Avengers", 1 # 2)]%Q%string /\
  exists i,
    resolve (df (Example.ask "alien")) (movie_title (Example.ask "alien")) = Found i /\
    Forall2 (fun p rec =>
               entry (cosine_sim (Example.ask "alien")) i (fst p) = Some (snd rec) /\
               option_map title (nth_error (df (Example.ask "alien")) (fst p)) =
                 Some (fst rec))
            (recommended 2 (Example.ask "alien"))
            [(Some "Avatar", 1 # 2); (Some "Avengers", 1 # 2)]%Q%string.
Proof.
  split; [reflexivity |].
  apply (@recommendation_is_matrix_entry Q Q_score 2 (Example.ask "alien")).
  reflexivity.
Defined.

(** X6 at the query "alien" with limit 2: "Titanic", left out, scores 0,
    not more than the 1/2 of "Avatar". *)
Lemma left_out_scores_no_higher_witness :
  StrictWeak Q /\
  resolve (df (Example.ask "alien")) (movie_title (Example.ask "alien")) = Found 3 /\
  nth_error (cosine_sim (Example.ask "alien")) 3 = Some [1 # 2; 1 # 2; 0; 1]%Q /\
  In (0, (1 # 2)%Q) (recommended 2 (Example.ask "alien")) /\
  nth_error [1 # 2; 1 # 2; 0; 1]%Q 2 = Some 0%Q /\
  2 <> 3 /\
  ~ In (2, 0%Q) (recommended 2 (Example.ask "alien")) /\
  score_ltb (snd (0, (1 # 2)%Q)) 0%Q = false.
Proof.
  assert (Hin : In (0, (1 # 2)%Q) (recommended 2 (Example.ask "alien")))
    by (vm_compute; left; reflexivity).
  assert (Hout : ~ In (2, 0%Q) (recommended 2 (Example.ask "alien")))
    by (vm_compute; intros [H | [H | []]]; discriminate H).
  split; [exact Q_strict_weak |]. split; [reflexivity |]. split; [reflexivity |].
  split; [exact Hin |]. split; [reflexivity |]. split; [lia |].
  split; [exact Hout |].
  apply (@left_out_scores_no_higher Q Q_score Q_strict_weak 2 (Example.ask "alien")
           3 [1 # 2; 1 # 2; 0; 1]%Q (0, (1 # 2)%Q) 2 0%Q);
    [reflexivity | reflexivity | exact Hin | reflexivity | lia | exact Hout].
Defined.

(* ================================================================= *)
(** * The input field and the widgets *)

Section StripFacts.

Lemma chars_of_list (l : list ascii) : Text.chars (string_of_list_ascii l) = l.
Proof. unfold Text.chars. apply list_ascii_of_string_of_list_ascii. Qed.

Lemma of_chars (s : string) : string_of_list_ascii (Text.chars s) = s.
Proof. unfold Text.chars. apply string_of_list_ascii_of_string. Qed.

(** [lstrip] removes a white-space prefix and stops at the first other
    character. *)
Lemma lstrip_split : forall s : list ascii,
    exists sp, s = sp ++ lstrip s /\
               Forall (fun c => is_space c = true) sp /\
               (forall c rest, lstrip s = c :: rest -> is_space c = false).
Proof.
  induction s as [| c s (sp & E & Hsp & Hhd)]; simpl.
  - exists []. repeat split; [constructor | discriminate].
  - destruct (is_space c) eqn:Ec.
    + exists (c :: sp). split; [simpl; congruence |].
      split; [constructor; assumption | assumption].
    + exists []. split; [reflexivity |]. split; [constructor |].
      intros d rest H. injection H as <- _. assumption.
Qed.

Lemma lstrip_id (s : list ascii) :
  (forall c rest, s = c :: rest -> is_space c = false) -> lstrip s = s.
Proof.
  destruct s as [| c s]; [reflexivity |]. intros H. simpl.
  now rewrite (H c s eq_refl).
Qed.

Lemma lstrip_blank (s : list ascii) :
  lstrip s = [] <-> Forall (fun c => is_space c = true) s.
Proof.
  induction s as [| c s IH]; simpl.
  - split; [constructor | reflexivity].
  - destruct (is_space c) eqn:Ec.
    + rewrite IH. split; [now constructor | intros H; now inversion H].
    + split; [discriminate |]. intros H. inversion H; congruence.
Qed.

Lemma strip_chars (text : string) :
  Text.chars (strip text) = rstrip (lstrip (Text.chars text)).
Proof. unfold strip, rstrip. apply chars_of_list. Qed.

Lemma rstrip_split (s : list ascii) :
  exists sp, s = rstrip s ++ sp /\
             Forall (fun c => is_space c = true) sp /\
             (forall c front, rstrip s = front ++ [c] -> is_space c = false).
Proof.
  unfold rstrip. destruct (lstrip_split (rev s)) as (sp & E & Hsp & Hhd).
  exists (rev sp). split; [| split].
  - rewrite <- rev_app_distr, <- E. symmetry. apply rev_involutive.
  - apply Forall_rev. assumption.
  - intros c front H. apply (f_equal (@rev ascii)) in H.
    rewrite rev_involutive, rev_app_distr in H. simpl in H. eauto.
Qed.

Lemma rstrip_id (s : list ascii) :
  (forall c front, s = front ++ [c] -> is_space c = false) -> rstrip s = s.
Proof.
  intros H. unfold rstrip. rewrite lstrip_id; [apply rev_involutive |].
  intros c rest E. apply (H c (rev rest)).
  apply (f_equal (@rev ascii)) in E. rewrite rev_involutive in E. exact E.
Qed.

Lemma strip_trimmed (text : string) : trimmed (Text.chars (strip text)).
Proof.
  rewrite strip_chars.
  destruct (lstrip_split (Text.chars text)) as (sp & _ & _ & Hhd).
  destruct (rstrip_split (lstrip (Text.chars text))) as (sp' & E & _ & Hlast).
  split; [| assumption].
  intros c rest Hc. rewrite Hc in E. simpl in E. eauto.
Qed.

End StripFacts.

(** X8.  The title handed to the worker is the input without its
    surrounding white space: nothing else is removed, the result neither
    begins nor ends with white space, stripping twice changes nothing, and
    an input without surrounding white space is kept as it is. *)
Theorem strip_removes_surrounding_space (text : string) :
  (exists before after,
      Text.chars text = before ++ Text.chars (strip text) ++ after /\
      Forall (fun c => is_space c = true) before /\
      Forall (fun c => is_space c = true) after) /\
  trimmed (Text.chars (strip text)) /\
  strip (strip text) = strip text /\
  (trimmed (Text.chars text) -> strip text = text).
Proof.
  assert (Hid : forall t, trimmed (Text.chars t) -> strip t = t).
  { intros t [Hhd Hlast]. unfold strip.
    rewrite (@lstrip_id _ Hhd).
    change (rev (lstrip (rev (Text.chars t)))) with (rstrip (Text.chars t)).
    rewrite (@rstrip_id _ Hlast). apply of_chars. }
  split; [| split; [apply strip_trimmed | split; [| apply Hid]]].
  - rewrite strip_chars.
    destruct (lstrip_split (Text.chars text)) as (sp & E & Hsp & _).
    destruct (rstrip_split (lstrip (Text.chars text))) as (sp' & E' & Hsp' & _).
    exists sp, sp'. split; [| split; assumption].
    rewrite <- E'. exact E.
  - apply Hid, strip_trimmed.
Qed.

Lemma strip_empty_iff (text : string) : strip text = EmptyString <-> blank text.
Proof.
  unfold blank.
  destruct (lstrip_split (Text.chars text)) as (sp & E & Hsp & _).
  assert (H1 : strip text = EmptyString <-> rstrip (lstrip (Text.chars text)) = []).
  { rewrite <- strip_chars. split.
    - intros ->. reflexivity.
    - intros H. rewrite <- (of_chars (strip text)), H. reflexivity. }
  rewrite H1. unfold rstrip. split.
  - intros H. apply (f_equal (@rev ascii)) in H. rewrite rev_involutive in H.
    simpl in H. apply lstrip_blank in H. apply Forall_rev in H.
    rewrite rev_involutive in H. rewrite E. apply Forall_app. split; assumption.
  - intros H. rewrite E in H. apply Forall_app in H. destruct H as [_ H].
    apply Forall_rev in H. apply lstrip_blank in H. rewrite H. reflexivity.
Qed.

Section InputFacts.
Context {S : Type} {lt : ScoreLt S}.

(** X9.  An input of white space only (or no input) starts no worker: the
    frame, the matrix and the worker of the window stay as they are, the
    list and the labels keep what they show, and one "Input Required" box
    is raised.  Any other input starts a worker with the stripped text,
    after the button is disabled and the list emptied. *)
Theorem blank_input_starts_no_worker (text : string) (g : gui S) (v : view (S := S)) :
  (blank text <-> snd (get_recommendations text g) = None) /\
  (blank text ->
   get_recommendations text g = (g, None) /\
   snd (start_search text v) = None /\
   list_items (fst (start_search text v)) = list_items v /\
   button_enabled (fst (start_search text v)) = button_enabled v /\
   results_label (fst (start_search text v)) = results_label v /\
   status_label (fst (start_search text v)) = status_label v /\
   boxes (fst (start_search text v)) =
     ("Input Required"%string, "Please enter a movie title."%string) :: boxes v) /\
  (~ blank text ->
   snd (get_recommendations text g) =
     Some (snd (run {| movie_title := strip text; df := gui_df g;
                       cosine_sim := gui_cosine_sim g |})) /\
   snd (start_search text v) = Some (strip text) /\
   list_items (fst (start_search text v)) = [] /\
   button_enabled (fst (start_search text v)) = false /\
   boxes (fst (start_search text v)) = boxes v).
Proof.
  rewrite <- strip_empty_iff.
  rewrite get_recommendations_signal. unfold get_recommendations, start_search.
  destruct (strip text) as [| c q] eqn:E.
  - split; [tauto |]. split; [| intros H; now contradiction H].
    intros _. repeat split.
  - split; [split; discriminate |]. split; [discriminate |].
    intros _. repeat split.
Qed.

End InputFacts.

Section DisplayFacts.
Context {S : Type}.
Variable percent : S -> string.

Lemma add_items_numbered : forall (recs : list (recommendation S)) idx items,
    add_items percent idx recs items =
    items ++ map (fun p => item_for percent (fst p) (snd p))
                 (combine (seq idx (List.length recs)) recs).
Proof.
  induction recs as [| r recs IH]; intros idx items; simpl.
  - now rewrite app_nil_r.
  - rewrite IH, <- app_assoc. reflexivity.
Qed.

(** X10.  Shown a non-empty list of recommendations (and no error text),
    the list widget holds exactly these recommendations, in order, the
    k-th numbered k, counting from 1; both labels report their number and
    the button is enabled again.  Shown an empty list, the widget keeps
    its items and the label reads "No recommendations found.". *)
Theorem display_numbers_and_counts
        (recs : list (recommendation S)) (error : option string) (v : view) :
  error = None \/ error = Some EmptyString ->
  button_enabled (display_recommendations percent recs error v) = true /\
  (recs = [] ->
   list_items (display_recommendations percent recs error v) = list_items v /\
   results_label (display_recommendations percent recs error v) =
     "No recommendations found."%string) /\
  (recs <> [] ->
   map item_data (list_items (display_recommendations percent recs error v)) = recs /\
   (forall k it,
       nth_error (list_items (display_recommendations percent recs error v)) k = Some it ->
       exists r, nth_error recs k = Some r /\ it = item_for percent (k + 1) r) /\
   results_label (display_recommendations percent recs error v) =
     ("Found " ++ decimal (List.length recs) ++ " recommendations")%string /\
   status_label (display_recommendations percent recs error v) =
     ("Displaying " ++ decimal (List.length recs) ++ " recommendations")%string).
Proof.
  intros Herr.
  assert (Hd : display_recommendations percent recs error v =
               display_recommendations percent recs None v)
    by (destruct Herr as [-> | ->]; reflexivity).
  rewrite Hd. clear Hd Herr. unfold display_recommendations.
  destruct recs as [| r recs].
  - split; [reflexivity |]. split; [intros _; split; reflexivity |].
    intros H. now contradiction H.
  - split; [reflexivity |]. split; [discriminate |]. intros _.
    cbn [list_items results_label status_label].
    rewrite add_items_numbered. cbn [app].
    remember (r :: recs) as l eqn:El. clear El r recs.
    split; [| split; [| split; reflexivity]].
    + generalize 1. induction l as [| r l IH]; intros n; simpl; [reflexivity |].
      now rewrite IH.
    + intros k it. replace (k + 1) with (1 + k) by lia. generalize 1. revert k.
      induction l as [| r l IH]; intros k n H; simpl in H.
      * destruct k; discriminate.
      * destruct k as [| k]; simpl in H.
        -- injection H as <-. exists r. rewrite Nat.add_0_r. split; reflexivity.
        -- apply IH in H. destruct H as (r' & Hr' & ->). exists r'.
           split; [assumption |]. f_equal. lia.
Qed.

End DisplayFacts.

(** X10 at two recommendations. *)
Lemma display_numbers_and_counts_witness :
  (@None string = None \/ @None string = Some EmptyString) /\
  map item_data
      (list_items (display_recommendations Sample.percent
                     [(Some "Avatar", 1 # 2); (Some "Avengers", 1 # 2)]%Q%string
                     None Sample.start)) =
    [(Some "Avatar", 1 # 2); (Some "Avengers", 1 # 2)]%Q%string /\
  map item_text
      (list_items (display_recommendations Sample.percent
                     [(Some "Avatar", 1 # 2); (Some "Avengers", 1 # 2)]%Q%string
                     None Sample.start)) =
    ["1. Avatar (Similarity: ?)"; "2. Avengers (Similarity: ?)"]%string /\
  button_enabled
    (display_recommendations Sample.percent
       [(Some "Avatar", 1 # 2); (Some "Avengers", 1 # 2)]%Q%string
       None Sample.start) = true.
Proof.
  split; [left; reflexivity |].
  split; [reflexivity |]. split; [reflexivity |].
  apply (@display_numbers_and_counts Q Sample.percent
           [(Some "Avatar", 1 # 2); (Some "Avengers", 1 # 2)]%Q%string
           None Sample.start).
  left. reflexivity.
Defined.

(* ================================================================= *)
(** * Further properties of loading *)

Module VocabularyFacts.
Import Vectorizer.

Lemma insert_token_In (x t : string) : forall v,
    In x (insert_token t v) <-> x = t \/ In x v.
Proof.
  induction v as [| u v IH]; simpl.
  - split; [intros [H | []]; auto | intros [H | []]; auto].
  - destruct (String.compare t u) eqn:E; simpl.
    + apply String.compare_eq_iff in E. subst.
      split; intros H; intuition (subst; auto).
    + split; intros H; intuition (subst; auto).
    + rewrite IH. split; intros H; intuition (subst; auto).
Qed.

Lemma fold_insert_In (x : string) : forall ts v,
    In x (fold_left (fun v t => insert_token t v) ts v) <-> In x ts \/ In x v.
Proof.
  induction ts as [| t ts IH]; intros v; simpl.
  - tauto.
  - rewrite IH, insert_token_In. split; intros H; intuition (subst; auto).
Qed.

(** The vocabulary holds the tokens of the documents, and nothing else. *)
Lemma vocabulary_In (docs : list string) (t : string) :
  In t (vocabulary docs) <-> exists d, In d docs /\ In t (tokenize d).
Proof.
  unfold vocabulary. rewrite fold_insert_In, in_concat. split.
  - intros [(ts & Hts & Ht) | []]. apply in_map_iff in Hts.
    destruct Hts as (d & <- & Hd). eauto.
  - intros (d & Hd & Ht). left. exists (tokenize d). split; [| assumption].
    now apply in_map.
Qed.

Lemma count_pos (t : string) (ts : list string) : 0 < count t ts <-> In t ts.
Proof. unfold count. symmetry. apply count_occ_In. Qed.

(** Two rows of counts over one vocabulary have a positive product sum
    exactly when some word is counted in both. *)
Lemma dot_counts_pos (f g : string -> nat) : forall v : list string,
    0 < Cosine.dot_counts (map f v) (map g v) <->
    exists t, In t v /\ 0 < f t /\ 0 < g t.
Proof.
  induction v as [| u v IH].
  - simpl. split; [intros H; inversion H | intros (t & [] & _)].
  - change (Cosine.dot_counts (map f (u :: v)) (map g (u :: v)))
      with (f u * g u + Cosine.dot_counts (map f v) (map g v)).
    split.
    + intros H. destruct (Nat.eq_dec (f u * g u) 0) as [E | N].
      * rewrite E in H. simpl in H. apply IH in H.
        destruct H as (t & Ht & H). exists t. split; [now right | assumption].
      * exists u. split; [now left |]. nia.
    + intros (t & [<- | Ht] & Hf & Hg).
      * nia.
      * assert (0 < Cosine.dot_counts (map f v) (map g v)) by (apply IH; eauto).
        lia.
Qed.

End VocabularyFacts.

Module SimilarityFacts.
Import Cosine.
Local Open Scope R_scope.

Lemma score_product (a b : list nat) :
  score a b = INR (dot_counts a b) * (/ divisor (to_float a) * / divisor (to_float b)).
Proof.
  unfold score, normalize_row. rewrite CosineFacts.dot_scaled.
  now rewrite CosineFacts.dot_counts_INR.
Qed.

(** The score is positive exactly when the product sum of the counts
    is. *)
Lemma score_pos (a b : list nat) : 0 < score a b <-> (0 < dot_counts a b)%nat.
Proof.
  rewrite score_product.
  pose proof (CosineFacts.divisor_pos (to_float a)) as Ha.
  pose proof (CosineFacts.divisor_pos (to_float b)) as Hb.
  assert (Hk : 0 < / divisor (to_float a) * / divisor (to_float b)).
  { apply Rmult_lt_0_compat; now apply Rinv_0_lt_compat. }
  split.
  - intros H. destruct (dot_counts a b) as [| n]; [| lia].
    simpl in H. rewrite Rmult_0_l in H. lra.
  - intros H. apply Rmult_lt_0_compat; [| assumption].
    now apply (lt_INR 0).
Qed.

End SimilarityFacts.

Module LoadedFacts.
Import Vectorizer Loader.

Lemma count_matrix_row (rows : DataFrame) (X : list (list nat)) (i : nat) (r : Row) :
  count_matrix rows = Some X -> nth_error rows i = Some r ->
  nth_error X i =
  Some (map (fun t => count t (movie_tokens r)) (vocabulary (docs_of rows))).
Proof.
  unfold count_matrix, fit_transform. fold (docs_of rows).
  destruct (vocabulary (docs_of rows)) as [| t v] eqn:Ev; [discriminate |].
  intros H Hr. injection H as <-. unfold transform, docs_of.
  rewrite map_map, nth_error_map, Hr. reflexivity.
Qed.

Lemma movie_tokens_in_vocabulary (rows : DataFrame) (i : nat) (r : Row) (t : string) :
  nth_error rows i = Some r -> In t (movie_tokens r) ->
  In t (vocabulary (docs_of rows)).
Proof.
  intros Hr Ht. apply VocabularyFacts.vocabulary_In.
  exists (combine_features (fill_features r)). split; [| exact Ht].
  unfold docs_of. apply in_map_iff. exists r. split; [reflexivity |].
  eapply nth_error_In. eassumption.
Qed.

Lemma shared_token (rows : DataFrame) (i j : nat) (ri rj : Row) :
  nth_error rows i = Some ri -> nth_error rows j = Some rj ->
  (0 < Cosine.dot_counts
         (map (fun t => count t (movie_tokens ri)) (vocabulary (docs_of rows)))
         (map (fun t => count t (movie_tokens rj)) (vocabulary (docs_of rows))) <->
   exists t, In t (movie_tokens ri) /\ In t (movie_tokens rj)).
Proof.
  intros Hi Hj. rewrite VocabularyFacts.dot_counts_pos. split.
  - intros (t & _ & Hf & Hg). exists t.
    split; now apply VocabularyFacts.count_pos.
  - intros (t & Hti & Htj). exists t.
    split; [eapply movie_tokens_in_vocabulary; eassumption |].
    split; now apply VocabularyFacts.count_pos.
Qed.

End LoadedFacts.

(** X11.  In the matrix the loader computes, the similarity of two movies
    is positive exactly when their combined attribute texts have a token
    in common (exact arithmetic); movies without a common token score
    0. *)
Theorem similarity_positive_iff_shared_token
        (rows : DataFrame) (X : list (list nat)) (i j : nat) (ri rj : Row) :
  Loader.count_matrix rows = Some X ->
  nth_error rows i = Some ri -> nth_error rows j = Some rj ->
  exists s,
    entry (Cosine.cosine_similarity X) i j = Some s /\
    ((0 < s)%R <-> exists t, In t (movie_tokens ri) /\ In t (movie_tokens rj)) /\
    ((forall t, In t (movie_tokens ri) -> ~ In t (movie_tokens rj)) -> s = 0%R).
Proof.
  intros HX Hi Hj.
  rewrite cosine_similarity_entry.
  rewrite (@LoadedFacts.count_matrix_row rows X i ri HX Hi),
    (@LoadedFacts.count_matrix_row rows X j rj HX Hj).
  eexists. split; [reflexivity |].
  assert (Hiff : (0 < Cosine.score
                        (map (fun t => Vectorizer.count t (movie_tokens ri))
                             (Vectorizer.vocabulary (docs_of rows)))
                        (map (fun t => Vectorizer.count t (movie_tokens rj))
                             (Vectorizer.vocabulary (docs_of rows))))%R <->
                 exists t, In t (movie_tokens ri) /\ In t (movie_tokens rj)).
  { rewrite SimilarityFacts.score_pos. exact (@LoadedFacts.shared_token rows i j ri rj Hi Hj). }
  split; [exact Hiff |].
  intros Hnone.
  destruct (CosineFacts.score_bounds
              (map (fun t => Vectorizer.count t (movie_tokens ri))
                   (Vectorizer.vocabulary (docs_of rows)))
              (map (fun t => Vectorizer.count t (movie_tokens rj))
                   (Vectorizer.vocabulary (docs_of rows)))) as [Hlo _].
  destruct (Rle_lt_or_eq_dec _ _ Hlo) as [Hpos | Hz]; [| now symmetry].
  exfalso. apply Hiff in Hpos. destruct Hpos as (t & Hti & Htj).
  exact (Hnone t Hti Htj).
Qed.

(** X13.  What the loader hands on: every row of the data set, in order
    and with its title untouched, each missing attribute replaced by the
    empty text, and a matrix with one row and one column per movie. *)
Theorem loader_keeps_rows (rows frame : DataFrame) (sim : list (list R)) :
  Loader.load_and_process_data (Loader.Frame rows) = Loader.Loaded frame sim ->
  frame = map loaded_row rows /\
  map title frame = map title rows /\
  Forall (fun r => keywords r <> None /\ cast r <> None /\
                   genres r <> None /\ director r <> None) frame /\
  List.length sim = List.length rows /\
  Forall (fun row => List.length row = List.length rows) sim.
Proof.
  intros H.
  destruct (@LoaderFacts.loaded_square rows frame sim EmptyString H) as [Hlen [Hs1 Hs2]].
  cbn [df cosine_sim] in Hs1, Hs2. rewrite Hlen in Hs1, Hs2.
  rewrite LoaderFacts.load_frame in H.
  destruct (Loader.count_matrix rows); [| discriminate].
  injection H as <- _.
  split; [unfold loaded_row; now rewrite map_map |].
  split; [rewrite !map_map; reflexivity |].
  split; [| split; assumption].
  rewrite Forall_forall. intros r Hr.
  apply in_map_iff in Hr. destruct Hr as (r1 & <- & Hr1).
  apply in_map_iff in Hr1. destruct Hr1 as (r0 & <- & _).
  unfold Loader.add_combined, Loader.fill_features, Pandas.fillna. simpl.
  repeat split;
    [destruct (keywords r0) | destruct (cast r0) | destruct (genres r0)
     | destruct (director r0)]; discriminate.
Qed.

(** X11 at "Avatar" and "Alien", which share the token "action". *)
Lemma similarity_positive_iff_shared_token_witness :
  Loader.count_matrix Example.corpus = Some Sample.counts /\
  nth_error Example.corpus 0 = Some (Example.movie "Avatar" "Action Adventure") /\
  nth_error Example.corpus 3 = Some (Example.movie "Alien" "Action Horror") /\
  exists s,
    entry (Cosine.cosine_similarity Sample.counts) 0 3 = Some s /\
    ((0 < s)%R <->
     exists t, In t (movie_tokens (Example.movie "Avatar" "Action Adventure")) /\
               In t (movie_tokens (Example.movie "Alien" "Action Horror"))) /\
    ((forall t, In t (movie_tokens (Example.movie "Avatar" "Action Adventure")) ->
                ~ In t (movie_tokens (Example.movie "Alien" "Action Horror"))) ->
     s = 0%R).
Proof.
  assert (HX : Loader.count_matrix Example.corpus = Some Sample.counts)
    by (vm_compute; reflexivity).
  split; [exact HX |]. split; [reflexivity |]. split; [reflexivity |].
  apply (@similarity_positive_iff_shared_token Example.corpus Sample.counts 0 3
           (Example.movie "Avatar" "Action Adventure")
           (Example.movie "Alien" "Action Horror") HX);
    reflexivity.
Defined.

Lemma sample_loaded :
  Loader.load_and_process_data (Loader.Frame Example.corpus) =
  Loader.Loaded (map loaded_row Example.corpus)
                (Cosine.cosine_similarity Sample.counts).
Proof.
  rewrite LoaderFacts.load_frame.
  assert (HX : Loader.count_matrix Example.corpus = Some Sample.counts)
    by (vm_compute; reflexivity).
  rewrite HX. unfold loaded_row. rewrite map_map. reflexivity.
Defined.

(** X13 at the sample corpus. *)
Lemma loader_keeps_rows_witness :
  Loader.load_and_process_data (Loader.Frame Example.corpus) =
    Loader.Loaded (map loaded_row Example.corpus)
                  (Cosine.cosine_similarity Sample.counts) /\
  (map loaded_row Example.corpus = map loaded_row Example.corpus /\
   map title (map loaded_row Example.corpus) = map title Example.corpus /\
   Forall (fun r => keywords r <> None /\ cast r <> None /\
                    genres r <> None /\ director r <> None)
          (map loaded_row Example.corpus) /\
   List.length (Cosine.cosine_similarity Sample.counts) = List.length Example.corpus /\
   Forall (fun row => List.length row = List.length Example.corpus)
          (Cosine.cosine_similarity Sample.counts)).
Proof.
  split; [exact sample_loaded |].
  apply (@loader_keeps_rows Example.corpus (map loaded_row Example.corpus)
           (Cosine.cosine_similarity Sample.counts) sample_loaded).
Defined.

(** X15.  The order of the sorted row is determined by the scores and
    the row numbers alone: an arrangement of the enumerated row that is
    descending by score, with equal scores in row order, is the list the
    worker iterates over. *)
Theorem sorted_row_is_determined
        (S : Type) (lt : ScoreLt S) (laws : StrictWeak S)
        (row : list S) (l : list (nat * S)) :
  Permutation l (enumerate row) -> StronglySorted ranks_before l ->
  sorted_desc (enumerate row) = l.
Proof.
  intros Hp Hs. symmetry. now apply sorted_desc_unique.
Qed.

(** X15 at the row of "Alien". *)
Lemma sorted_row_is_determined_witness :
  StrictWeak Q /\
  Permutation Sample.alien_sorted (enumerate [1 # 2; 1 # 2; 0; 1]%Q) /\
  StronglySorted ranks_before Sample.alien_sorted /\
  sorted_desc (enumerate [1 # 2; 1 # 2; 0; 1]%Q) = Sample.alien_sorted.
Proof.
  assert (Hp : Permutation Sample.alien_sorted (enumerate [1 # 2; 1 # 2; 0; 1]%Q)).
  { change Sample.alien_sorted with (sorted_desc (enumerate [1 # 2; 1 # 2; 0; 1]%Q)).
    apply sorted_desc_perm. }
  assert (Hs : StronglySorted ranks_before Sample.alien_sorted).
  { unfold Sample.alien_sorted.
    repeat (constructor; [| repeat constructor; simpl; try reflexivity;
                            intros; try lia; try discriminate]).
    constructor. }
  split; [exact Q_strict_weak |]. split; [exact Hp |]. split; [exact Hs |].
  apply (@sorted_row_is_determined Q Q_score Q_strict_weak
           [1 # 2; 1 # 2; 0; 1]%Q Sample.alien_sorted Hp Hs).
Defined.

(** X16.  Whatever the query, the row it resolves to is a row of the
    frame that has a title, and that title, lower-cased, equals the
    lower-cased query or is matched by it as a pattern: a movie whose
    title is missing is never resolved to, and on an empty frame nothing
    is. *)
Theorem resolved_row_has_matching_title (frame : DataFrame) (query : string) (i : nat) :
  resolve frame query = Found i ->
  frame <> [] /\
  exists r t,
    nth_error frame i = Some r /\ title r = Some t /\
    (Text.lower t = Text.lower query \/
     exists p, Regex.compile (Text.lower query) = Regex.Pattern p /\
               Regex.search p (Text.chars (Text.lower t)) = true).
Proof.
  intros Hres.
  assert (Hne : frame <> []).
  { destruct (resolve_found_row _ _ Hres) as (r & Hr). intros ->.
    destruct i; discriminate. }
  split; [exact Hne |].
  unfold resolve, Pandas.select in Hres.
  destruct (Pandas.select_from 0 frame
              (Pandas.eq_str (Pandas.title_lower frame) (Text.lower query)))
    as [| [k r] rest] eqn:Ex.
  - unfold Pandas.str_contains in Hres.
    destruct (Regex.compile (Text.lower query)) as [p | |] eqn:Ec; try discriminate.
    match type of Hres with
    | context [Pandas.select_from 0 frame ?m] =>
        destruct (Pandas.select_from 0 frame m) as [| [k r] rest] eqn:Es
    end; [discriminate |].
    injection Hres as <-.
    apply select_from_inv in Es. destruct Es as (j & -> & Hr & Hm & _).
    unfold Pandas.title_lower in Hm. rewrite map_map, nth_error_map, Hr in Hm.
    simpl in Hm. destruct (title r) as [t |] eqn:Ht; [| discriminate].
    simpl in Hm. injection Hm as Hm.
    exists r, t. split; [exact Hr |]. split; [exact Ht |].
    right. exists p. split; [reflexivity | exact Hm].
  - injection Hres as <-.
    apply select_from_inv in Ex. destruct Ex as (j & -> & Hr & Hm & _).
    rewrite (@eq_mask_nth frame query j r Hr) in Hm.
    destruct (title r) as [t |] eqn:Ht; [| discriminate].
    injection Hm as Hm. apply String.eqb_eq in Hm.
    exists r, t. split; [exact Hr |]. split; [exact Ht |]. now left.
Qed.

(** X16 at the query "venger". *)
Lemma resolved_row_has_matching_title_witness :
  resolve Example.corpus "venger" = Found 1 /\
  Example.corpus <> [] /\
  exists r t,
    nth_error Example.corpus 1 = Some r /\ title r = Some t /\
    (Text.lower t = Text.lower "venger" \/
     exists p, Regex.compile (Text.lower "venger") = Regex.Pattern p /\
               Regex.search p (Text.chars (Text.lower t)) = true).
Proof.
  split; [reflexivity |].
  apply (@resolved_row_has_matching_title Example.corpus "venger" 1).
  reflexivity.
Defined.

(* ----------------------------------------------------------------- *)
(** ** Loading and asking, with the matrix as it is computed *)

Module Loaded64Facts.

Lemma load64_frame (rows : DataFrame) :
  Loader64.load_and_process_data (Loader.Frame rows) =
  match Loader.count_matrix rows with
  | Some X => Loader64.Loaded (map loaded_row rows) (Binary64.cosine_similarity X)
  | None => Loader64.Exit_error Loader.ValueError_empty_vocabulary
  end.
Proof.
  unfold Loader64.load_and_process_data, Loader.count_matrix.
  rewrite LoaderFacts.documents. unfold loaded_row. rewrite map_map. reflexivity.
Qed.

Lemma cosine64_square (X : list (list nat)) :
  List.length (Binary64.cosine_similarity X) = List.length X /\
  Forall (fun row => List.length row = List.length X) (Binary64.cosine_similarity X).
Proof.
  unfold Binary64.cosine_similarity. split; [apply length_map |].
  rewrite Forall_forall. intros row Hrow.
  apply in_map_iff in Hrow. destruct Hrow as (a & <- & _). apply length_map.
Qed.

Lemma count_matrix_length (rows : DataFrame) (X : list (list nat)) :
  Loader.count_matrix rows = Some X -> List.length X = List.length rows.
Proof.
  unfold Loader.count_matrix, Vectorizer.fit_transform.
  destruct (Vectorizer.vocabulary _); [discriminate |].
  intros H. injection H as <-. unfold Vectorizer.transform.
  now rewrite !length_map.
Qed.

End Loaded64Facts.

Section RankingEntries.
Context {S : Type} {lt : ScoreLt S}.

(** The recommendations of a ranking are the titles and matrix entries of
    the rows picked from the sorted row. *)
Lemma ranking_entries (top : nat) (w : worker S) (i : nat)
      (recs : list (recommendation S)) :
  resolve (df w) (movie_title w) = Found i ->
  ranking top w i = finished recs ->
  Forall2 (fun p rec =>
             entry (cosine_sim w) i (fst p) = Some (snd rec) /\
             option_map title (nth_error (df w) (fst p)) = Some (fst rec))
          (recommended top w) recs.
Proof.
  intros Hres. unfold ranking, recommended, entry. rewrite Hres.
  destruct (nth_error (cosine_sim w) i) as [row |]; [| discriminate].
  destruct (labelled (df w) (picked top i (sorted_desc (enumerate row))))
    as [recs' |] eqn:El; [| discriminate].
  intros H. injection H as <-.
  apply (@labelled_entries S (df w) row _ _ El).
  rewrite Forall_forall. intros p Hp. apply picked_incl in Hp.
  now apply sorted_enumerate_In.
Qed.

End RankingEntries.

(** X14.  Loading and asking compose, on the matrix as the program
    computes it in binary64: for the frame and matrix of a successful
    load, every query that resolves gets min(20, n-1) recommendations for
    the n movies of the data set, none of them the resolved movie, each
    the title of a row with the computed similarity to the resolved
    one. *)
Theorem loaded_engine_recommends
        (rows frame : DataFrame) (sim : list (list PrimFloat.float))
        (query : string) (i : nat) :
  Loader64.load_and_process_data (Loader.Frame rows) = Loader64.Loaded frame sim ->
  resolve frame query = Found i ->
  exists recs,
    snd (run {| movie_title := query; df := frame; cosine_sim := sim |}) =
      finished recs /\
    List.length recs = Nat.min top_n (List.length rows - 1) /\
    ~ In i (map fst (recommended top_n
                       {| movie_title := query; df := frame; cosine_sim := sim |})) /\
    Forall2 (fun p rec =>
               entry sim i (fst p) = Some (snd rec) /\
               option_map title (nth_error frame (fst p)) = Some (fst rec))
            (recommended top_n
               {| movie_title := query; df := frame; cosine_sim := sim |})
            recs.
Proof.
  intros Hload Hres. rewrite Loaded64Facts.load64_frame in Hload.
  destruct (Loader.count_matrix rows) as [X |] eqn:HX; [| discriminate].
  injection Hload as <- <-.
  set (w := {| movie_title := query; df := map loaded_row rows;
               cosine_sim := Binary64.cosine_similarity X |}).
  assert (Hlen : List.length (map loaded_row rows) = List.length rows)
    by apply length_map.
  assert (Hsq : square w).
  { destruct (Loaded64Facts.cosine64_square X) as [H1 H2].
    rewrite (Loaded64Facts.count_matrix_length _ HX) in H1, H2.
    unfold square, w. cbn [df cosine_sim]. rewrite Hlen. split; assumption. }
  destruct (resolve_found_row _ _ Hres) as (r & Hr).
  assert (Hi : i < List.length (df w))
    by (unfold w; cbn [df]; apply nth_error_Some; congruence).
  destruct (@ranking_square _ float_score top_n w i Hsq Hi) as (recs & Hrank & Hn).
  change (Nat.max 1 top_n) with top_n in Hn.
  exists recs. unfold run. rewrite run_top_unfold.
  change (movie_title w) with query. change (df w) with (map loaded_row rows).
  rewrite Hres. cbn [snd].
  split; [exact Hrank |].
  split; [unfold w in Hn; cbn [df] in Hn; now rewrite <- Hlen |].
  split.
  - apply (@recommended_not_resolved _ float_score top_n w i). exact Hres.
  - apply (@ranking_entries _ float_score top_n w i recs); assumption.
Qed.

(** X14 at the sample corpus and the query "avatar". *)
Lemma loaded_engine_recommends_witness :
  Loader64.load_and_process_data (Loader.Frame Example.corpus) =
    Loader64.Loaded (map loaded_row Example.corpus)
                    (Binary64.cosine_similarity Sample.counts) /\
  resolve (map loaded_row Example.corpus) "avatar" = Found 0 /\
  exists recs,
    snd (run {| movie_title := "avatar"; df := map loaded_row Example.corpus;
                cosine_sim := Binary64.cosine_similarity Sample.counts |}) =
      finished recs /\
    List.length recs = Nat.min top_n (List.length Example.corpus - 1) /\
    ~ In 0 (map fst (recommended top_n
                       {| movie_title := "avatar";
                          df := map loaded_row Example.corpus;
                          cosine_sim := Binary64.cosine_similarity Sample.counts |})) /\
    Forall2 (fun p rec =>
               entry (Binary64.cosine_similarity Sample.counts) 0 (fst p) =
                 Some (snd rec) /\
               option_map title (nth_error (map loaded_row Example.corpus) (fst p)) =
                 Some (fst rec))
            (recommended top_n
               {| movie_title := "avatar";
                  df := map loaded_row Example.corpus;
                  cosine_sim := Binary64.cosine_similarity Sample.counts |})
            recs.
Proof.
  assert (Hload : Loader64.load_and_process_data (Loader.Frame Example.corpus) =
                  Loader64.Loaded (map loaded_row Example.corpus)
                                  (Binary64.cosine_similarity Sample.counts))
    by (vm_compute; reflexivity).
  split; [exact Hload |]. split; [reflexivity |].
  apply (@loaded_engine_recommends Example.corpus (map loaded_row Example.corpus)
           (Binary64.cosine_similarity Sample.counts) "avatar" 0 Hload).
  reflexivity.
Defined.
